(** * counter-app: the wallet session service and the counter component

    A shallow embedding of the two source files of the repository,

    - [src/lib/contract.ts], found in the second half of
      [src/app/page.tsx] (module [Contract]): provider discovery, network
      enforcement, the [CounterContractService] singleton;
    - [src/components/CounterApp.tsx] (module [CounterApp]): the React
      component state, the action executor, the activity ledger and its
      export/import,

    followed by the properties of the specification, each stated over
    these definitions.

    Modelling conventions.
    - An [async] function is a computation in the monad [M]: it threads the
      mutable fields of the service object and the log of every outbound
      request, and it either returns or throws.
    - The wallet, the chain and the clock are not part of the repository.
      They are an arbitrary deterministic environment [Env]: each answer may
      depend on the whole log of requests issued so far.
    - JavaScript strings are byte strings; addresses and chain ids are ASCII.
    - Timers that only clear a transient notification ([setTimeout] in
      [showSuccess], [triggerAnimation], the achievement banner) are left out. *)

From Stdlib Require Import ZArith List String Ascii Bool Lia.
From Stdlib Require Import DecimalString DecimalZ.
Import ListNotations.

Set Warnings "-register-all".

#[local] Open Scope string_scope.
#[local] Open Scope list_scope.
#[local] Open Scope Z_scope.

(* ===================================================================== *)
(** ** JavaScript primitives used by the sources *)
(* ===================================================================== *)

Module JS.

(** [String.prototype.toLowerCase] on ASCII text: A-Z go to a-z, every
    other byte is kept. *)
Definition lower_ascii (c : ascii) : ascii :=
  let n := nat_of_ascii c in
  if (Nat.leb 65 n && Nat.leb n 90)%bool then ascii_of_nat (n + 32) else c.

Fixpoint toLowerCase (s : string) : string :=
  match s with
  | EmptyString => EmptyString
  | String c r => String (lower_ascii c) (toLowerCase r)
  end.

(** [String.prototype.includes]. *)
Fixpoint includes (s sub : string) : bool :=
  if prefix sub s then true
  else match s with
       | EmptyString => false
       | String _ r => includes r sub
       end.

(** *** BigInt *)

(** [StrWhiteSpaceChar], as far as it is ASCII. *)
Definition is_space (c : ascii) : bool :=
  let n := nat_of_ascii c in
  (Nat.eqb n 32 || (Nat.leb 9 n && Nat.leb n 13))%bool.

Fixpoint trim_start (s : string) : string :=
  match s with
  | EmptyString => EmptyString
  | String c r => if is_space c then trim_start r else s
  end.

Fixpoint trim_end (s : string) : string :=
  match s with
  | EmptyString => EmptyString
  | String c r =>
      match trim_end r with
      | EmptyString => if is_space c then EmptyString else String c EmptyString
      | r' => String c r'
      end
  end.

Definition trim (s : string) : string := trim_end (trim_start s).

Fixpoint is_ascii_text (s : string) : bool :=
  match s with
  | EmptyString => true
  | String c r => (Nat.ltb (nat_of_ascii c) 128 && is_ascii_text r)%bool
  end.

Definition digit_value (c : ascii) : option Z :=
  let n := Z.of_nat (nat_of_ascii c) in
  if (48 <=? n) && (n <=? 57) then Some (n - 48)
  else if (97 <=? n) && (n <=? 102) then Some (n - 87)
  else if (65 <=? n) && (n <=? 70) then Some (n - 55)
  else None.

Fixpoint radix_value (base acc : Z) (s : string) : option Z :=
  match s with
  | EmptyString => Some acc
  | String c r =>
      match digit_value c with
      | Some d => if d <? base then radix_value base (acc * base + d) r else None
      | None => None
      end
  end.

(** [DecimalDigits]: one digit at least. *)
Definition decimal_value (s : string) : option Z :=
  match s with
  | EmptyString => None
  | _ => option_map Z.of_uint (DecimalString.NilEmpty.uint_of_string s)
  end.

Definition prefixed_value (base : Z) (digits : string) : option Z :=
  match digits with
  | EmptyString => None
  | _ => radix_value base 0 digits
  end.

(** [StringToBigInt] on ASCII text: surrounding white space is dropped; the
    empty string is 0; then either a 0x, 0o or 0b literal without sign, or
    decimal digits with an optional sign.  [None] is a SyntaxError. *)
Definition StringToBigInt (s : string) : option Z :=
  match trim s with
  | EmptyString => Some 0
  | String "0" (String "x" r) | String "0" (String "X" r) => prefixed_value 16 r
  | String "0" (String "o" r) | String "0" (String "O" r) => prefixed_value 8 r
  | String "0" (String "b" r) | String "0" (String "B" r) => prefixed_value 2 r
  | String "-" r => option_map Z.opp (decimal_value r)
  | String "+" r => decimal_value r
  | t => decimal_value t
  end%char.

(** [BigInt.prototype.toString()] *)
Definition BigInt_toString (z : Z) : string :=
  DecimalString.NilZero.string_of_int (Z.to_int z).

(** *** JSON values *)

(** A double is kept as the number [m * 2^e], or as an infinity ([JSON.parse]
    never yields NaN). *)
Inductive Double :=
| Finite (m e : Z)
| Infinite (negative : bool).

Inductive JSON :=
| JNull
| JBool (b : bool)
| JNumber (n : Double)
| JString (s : string)
| JArray (items : list JSON)
| JObject (props : list (string * JSON)).

(** A JavaScript value that may be [undefined]. *)
Definition JSValue := option JSON.

(** Property access [v.key] for the keys the component reads ([history],
    [value], [action], [timestamp], [txHash]): [None] on [null] is the
    TypeError, [Some None] is [undefined]. *)
Fixpoint lookup (key : string) (props : list (string * JSON)) : JSValue :=
  match props with
  | [] => None
  | (k, v) :: rest => if String.eqb k key then Some v else lookup key rest
  end.

Definition get (v : JSON) (key : string) : option JSValue :=
  match v with
  | JNull => None
  | JObject props => Some (lookup key props)
  | _ => Some None
  end.

(** An object literal: [JSON.stringify] leaves out the properties whose
    value is [undefined]. *)
Fixpoint object_literal (props : list (string * JSValue)) : JSON :=
  match props with
  | [] => JObject []
  | (k, None) :: rest => object_literal rest
  | (k, Some v) :: rest =>
      match object_literal rest with
      | JObject ps => JObject ((k, v) :: ps)
      | other => other
      end
  end.

(** What [JSON.stringify] writes for a value: an infinity becomes [null]. *)
Fixpoint serialized (v : JSON) : JSON :=
  match v with
  | JNumber (Infinite _) => JNull
  | JArray items => JArray (map serialized items)
  | JObject props =>
      JObject (map (fun kv => match kv with (k, x) => (k, serialized x) end) props)
  | _ => v
  end.

(** The text of a file, up to what [JSON.parse] makes of it: either the
    parser throws, or it yields a document. *)
Inductive FileText :=
| Unparsable
| Parsable (doc : JSON).

Definition JSON_parse (text : FileText) : option JSON :=
  match text with
  | Unparsable => None
  | Parsable doc => Some doc
  end.

Definition JSON_stringify (v : JSON) : FileText := Parsable (serialized v).

(** *** Date *)

(** A [Date] object: a time value in milliseconds since the epoch, or the
    Invalid Date. *)
Inductive JSDate :=
| ValidDate (t : Z)
| InvalidDate.

Definition maxTime : Z := 8640000000000000.

Definition valid_time (t : Z) : bool := (- maxTime <=? t) && (t <=? maxTime).

Definition msPerDay : Z := 86400000.

(** Day number (days since 1970-01-01) to proleptic Gregorian year, month,
    day, and back. *)
Definition civil_from_days (z : Z) : Z * Z * Z :=
  let z := z + 719468 in
  let era := z / 146097 in
  let doe := z mod 146097 in
  let yoe := (doe - doe / 1460 + doe / 36524 - doe / 146096) / 365 in
  let doy := doe - (365 * yoe + yoe / 4 - yoe / 100) in
  let mp := (5 * doy + 2) / 153 in
  let d := doy - (153 * mp + 2) / 5 + 1 in
  let m := if mp <? 10 then mp + 3 else mp - 9 in
  let y := yoe + era * 400 in
  (if m <=? 2 then y + 1 else y, m, d).

Definition days_from_civil (y m d : Z) : Z :=
  let y := if m <=? 2 then y - 1 else y in
  let era := y / 400 in
  let yoe := y mod 400 in
  let mp := if m <=? 2 then m + 9 else m - 3 in
  let doy := (153 * mp + 2) / 5 + d - 1 in
  let doe := yoe * 365 + yoe / 4 - yoe / 100 + doy in
  era * 146097 + doe - 719468.

Definition digit_char (n : Z) : ascii := ascii_of_nat (Z.to_nat (48 + n mod 10)).

(** [n] written with exactly [w] decimal digits, the most significant
    first. *)
Fixpoint pad (w : nat) (n : Z) : string :=
  match w with
  | O => EmptyString
  | S w' => String (digit_char (n / 10 ^ Z.of_nat w')) (pad w' n)
  end.

(** [Date.prototype.toISOString] at a valid time value:
    YYYY-MM-DDTHH:mm:ss.sssZ, the year with a sign and six digits outside
    0..9999. *)
Definition year_string (y : Z) : string :=
  if (0 <=? y) && (y <=? 9999) then pad 4 y
  else if y <? 0 then String "-" (pad 6 (- y)) else String "+" (pad 6 y).

Definition toISOString_at (t : Z) : string :=
  let day := t / msPerDay in
  let ms := t mod msPerDay in
  let '(y, m, d) := civil_from_days day in
  year_string y ++ "-" ++ pad 2 m ++ "-" ++ pad 2 d
  ++ "T" ++ pad 2 (ms / 3600000) ++ ":" ++ pad 2 ((ms / 60000) mod 60)
  ++ ":" ++ pad 2 ((ms / 1000) mod 60) ++ "." ++ pad 3 (ms mod 1000) ++ "Z".

(** [None] is the RangeError thrown at the Invalid Date. *)
Definition toISOString (d : JSDate) : option string :=
  match d with
  | ValidDate t => Some (toISOString_at t)
  | InvalidDate => None
  end.

(** Read exactly [w] decimal digits. *)
Fixpoint take_digits (w : nat) (acc : Z) (s : string) : option (Z * string) :=
  match w with
  | O => Some (acc, s)
  | S w' =>
      match s with
      | EmptyString => None
      | String c r =>
          let n := Z.of_nat (nat_of_ascii c) in
          if (48 <=? n) && (n <=? 57) then take_digits w' (acc * 10 + (n - 48)) r
          else None
      end
  end.

Definition expect (c : ascii) (s : string) : option string :=
  match s with
  | String c' r => if Ascii.eqb c c' then Some r else None
  | EmptyString => None
  end.

Definition bind_opt {A B} (o : option A) (k : A -> option B) : option B :=
  match o with Some a => k a | None => None end.

Definition take_year (s : string) : option (Z * string) :=
  match s with
  | String "-" r => bind_opt (take_digits 6 0 r) (fun '(y, r') => Some (- y, r'))
  | String "+" r => take_digits 6 0 r
  | _ => take_digits 4 0 s
  end%char.

(** The fields of a full UTC date-time string put back together. *)
Definition decode_iso (s : string) : option Z :=
  bind_opt (take_year s) (fun '(y, s) =>
  bind_opt (expect "-" s) (fun s =>
  bind_opt (take_digits 2 0 s) (fun '(m, s) =>
  bind_opt (expect "-" s) (fun s =>
  bind_opt (take_digits 2 0 s) (fun '(d, s) =>
  bind_opt (expect "T" s) (fun s =>
  bind_opt (take_digits 2 0 s) (fun '(hh, s) =>
  bind_opt (expect ":" s) (fun s =>
  bind_opt (take_digits 2 0 s) (fun '(mm, s) =>
  bind_opt (expect ":" s) (fun s =>
  bind_opt (take_digits 2 0 s) (fun '(ss, s) =>
  bind_opt (expect "." s) (fun s =>
  bind_opt (take_digits 3 0 s) (fun '(sss, s) =>
  bind_opt (expect "Z" s) (fun s =>
  match s with
  | EmptyString =>
      Some (days_from_civil y m d * msPerDay
            + hh * 3600000 + mm * 60000 + ss * 1000 + sss)
  | _ => None
  end))))))))))))))%char.

(** The strings [Date.parse] is specified on here: those that
    [toISOString] itself writes for some valid time value. *)
Definition parse_canonical (s : string) : option Z :=
  match decode_iso s with
  | Some t => if valid_time t && String.eqb (toISOString_at t) s then Some t else None
  | None => None
  end.

(** The parts of the engine that are not modelled: [BigInt(v)] and
    [new Date(v)] at arguments outside the fragments above.  [host_Date]
    always yields a date: the TypeError [new Date] throws at an object that
    cannot be converted to a primitive is not modelled, so an import may
    succeed here on such a file and fails in the engine. *)
Record Engine := {
  host_BigInt : JSON -> option Z;
  host_Date : JSON -> JSDate
}.

(** [BigInt(v)]; [None] is a thrown TypeError, RangeError or SyntaxError. *)
Definition BigInt (eng : Engine) (v : JSValue) : option Z :=
  match v with
  | None => None
  | Some JNull => None
  | Some (JBool b) => Some (if b then 1 else 0)
  | Some (JString s) =>
      if is_ascii_text s then StringToBigInt s else host_BigInt eng (JString s)
  | Some (JNumber (Finite m e)) =>
      if 0 <=? e then Some (m * 2 ^ e)
      else if m mod 2 ^ (- e) =? 0 then Some (m / 2 ^ (- e)) else None
  | Some (JNumber (Infinite _)) => None
  | Some other => host_BigInt eng other
  end.

(** [new Date(v)] *)
Definition Date_new (eng : Engine) (v : JSValue) : JSDate :=
  match v with
  | None => InvalidDate
  | Some JNull => ValidDate 0
  | Some (JBool b) => ValidDate (if b then 1 else 0)
  | Some (JString s) =>
      match parse_canonical s with
      | Some t => ValidDate t
      | None => host_Date eng (JString s)
      end
  | Some (JNumber (Finite m e)) =>
      if 0 <=? e
      then (if valid_time (m * 2 ^ e) then ValidDate (m * 2 ^ e) else InvalidDate)
      else if Z.abs m <=? maxTime * 2 ^ (- e)
           then ValidDate (Z.quot m (2 ^ (- e))) else InvalidDate
  | Some (JNumber (Infinite _)) => InvalidDate
  | Some other => host_Date eng other
  end.

End JS.

(* ===================================================================== *)
(** ** src/lib/contract.ts *)
(* ===================================================================== *)

Module Contract.

(** *** Errors *)

(** What an injected provider, the chain or ethers rejects a request with:
    an object with an optional numeric [code] and an optional [message]. *)
Record RpcError := { code : option Z; message : option string }.

Inductive Handle := TheContract | TheProvider | TheSigner.

(** The values the service throws.  The constructors follow the error
    taxonomy of the specification; the literal messages of the source are
    quoted next to each [throw] below. *)
Inductive JsError :=
| NoBrowserContext
| ProviderNotDetected
| ProviderNotSelected
| Rejected (cause : RpcError)
| ContractMethodMissing (name : string)
| NotConnected (h : Handle)
| Unauthorized
| TypeError_notAFunction (name : string).

Definition err_code (e : JsError) : option Z :=
  match e with Rejected c => code c | _ => None end.

(** The [message] property of a thrown value.  The service's own [Error]
    objects carry Korean messages, none of which contains the English
    phrase the network enforcer looks for; they are rendered here by a
    fixed placeholder. *)
Definition err_message (e : JsError) : option string :=
  match e with Rejected c => message c | _ => Some "Error" end.

(** *** EIP-1193 providers *)

Inductive Eip1193Provider :=
| mkProvider (isMetaMask : bool) (providers : option (list Eip1193Provider)).

Definition isMetaMask (p : Eip1193Provider) : bool :=
  match p with mkProvider b _ => b end.

Definition providers (p : Eip1193Provider) : option (list Eip1193Provider) :=
  match p with mkProvider _ l => l end.

Record ChainDescriptor := {
  chainId : string;
  chainName : string;
  nativeCurrency : string * string * Z;   (* name, symbol, decimals *)
  rpcUrls : list string;
  blockExplorerUrls : list string
}.

Inductive RpcRequest :=
| eth_chainId
| wallet_switchEthereumChain (chainId : string)
| wallet_addEthereumChain (d : ChainDescriptor)
| eth_requestAccounts.

(** Everything the service sends out, in the order it is sent. *)
Inductive Event :=
| Rpc (r : RpcRequest)            (* mm.request({ method, params }) *)
| GetSigner                       (* BrowserProvider.getSigner() *)
| Call (method : string)          (* a read of the bound contract *)
| Send (method : string)          (* a transaction submitted to the contract *)
| Wait (txHash : string)          (* tx.wait() *)
| GetAddress                      (* JsonRpcSigner.getAddress() *)
| GetNetwork                      (* BrowserProvider.getNetwork() *)
| GetFeeData.                     (* BrowserProvider.getFeeData() *)

Definition Trace := list Event.

(** The browser window as [waitForEthereum] sees it. *)
Record Window := {
  (** [window.ethereum] when the function is entered *)
  ethereum : option Eip1193Provider;
  (** [Some e]: the ['ethereum#initialized'] event fires before the 1500 ms
      timer and [getEthereum()] then returns [e]; [None]: the timer fires
      first. *)
  ethereum_initialized : option (option Eip1193Provider)
}.

(** The environment.  Every answer is a function of the requests logged
    before it. *)
Record Env := {
  window : option Window;              (* [None]: typeof window === 'undefined' *)
  (** the function names declared by [./Counter.json], which is not among
      the sources *)
  CounterABI : list string;
  rpc : Trace -> RpcRequest -> RpcError + option string;
  provider_getSigner : Trace -> RpcError + unit;
  contract_getCounter : Trace -> RpcError + Z;
  contract_owner : Trace -> RpcError + string;
  contract_send : Trace -> string -> RpcError + string;         (* tx.hash *)
  tx_wait : Trace -> string -> RpcError + option string;        (* receipt?.hash *)
  signer_getAddress : Trace -> RpcError + string;
  provider_getNetwork : Trace -> RpcError + (string * Z);       (* name, chainId *)
  provider_getFeeData : Trace -> RpcError + option Z;           (* gasPrice *)
  formatUnits_gwei : Z -> string;                               (* ethers.formatUnits(_, 'gwei') *)
  now : Trace -> Z                                              (* the clock, in ms *)
}.

(** *** The service object and the monad of its methods *)

(** [ethers.Contract]: a handle answers to the function names of its ABI. *)
Record EthersContract := { abi : list string }.

Definition has_method (name : string) (c : EthersContract) : bool :=
  existsb (String.eqb name) (abi c).

Record CounterContractService := {
  _contract : option EthersContract;
  _provider : option unit;
  _signer : option unit
}.

Definition new_service : CounterContractService :=
  {| _contract := None; _provider := None; _signer := None |}.

Record Heap := { this : CounterContractService; trace : Trace }.

Inductive Outcome (A : Type) :=
| Ok (a : A)
| Throw (e : JsError).
Arguments Ok {A} a.
Arguments Throw {A} e.

Definition M (A : Type) : Type := Heap -> Outcome A * Heap.

Definition ret {A} (a : A) : M A := fun h => (Ok a, h).

Definition throw {A} (e : JsError) : M A := fun h => (Throw e, h).

Definition bind {A B} (c : M A) (k : A -> M B) : M B :=
  fun h => match c h with
           | (Ok a, h') => k a h'
           | (Throw e, h') => (Throw e, h')
           end.

(** [try { c } catch (e) { handler e }] *)
Definition try_catch {A} (c : M A) (handler : JsError -> M A) : M A :=
  fun h => match c h with
           | (Ok a, h') => (Ok a, h')
           | (Throw e, h') => handler e h'
           end.

Notation "x <- c ;; k" := (bind c (fun x => k))
  (at level 61, c at next level, right associativity).
Notation "c ;;; k" := (bind c (fun _ => k))
  (at level 61, right associativity).

Definition read_this : M CounterContractService := fun h => (Ok (this h), h).

Definition write_this (f : CounterContractService -> CounterContractService) : M unit :=
  fun h => (Ok tt, {| this := f (this h); trace := trace h |}).

(** Send [ev] out and wait for the environment's answer to it. *)
Definition await {A} (ev : Event) (answer : Trace -> RpcError + A) : M A :=
  fun h =>
    let h' := {| this := this h; trace := trace h ++ [ev] |} in
    match answer (trace h) with
    | inr a => (Ok a, h')
    | inl e => (Throw (Rejected e), h')
    end.

Definition request (env : Env) (r : RpcRequest) : M (option string) :=
  await (Rpc r) (fun t => rpc env t r).

(** *** Provider discovery *)

Definition getEthereum (w : option Window) : option Eip1193Provider :=
  match w with
  | None => None
  | Some win => ethereum win
  end.

Definition pickMetaMask (injected : option Eip1193Provider) : option Eip1193Provider :=
  match injected with
  | None => None
  | Some inj =>
      match providers inj with
      | Some (p :: l) => find isMetaMask (p :: l)
      | _ => if isMetaMask inj then Some inj else None
      end
  end.

Definition waitForEthereum (env : Env) : M Eip1193Provider :=
  match window env with
  | None => throw NoBrowserContext          (* '브라우저 환경이 아닙니다.' *)
  | Some win =>
      match ethereum win with
      | Some existing => ret existing
      | None =>
          match ethereum_initialized win with
          | None => throw ProviderNotDetected            (* the timer *)
          | Some (Some eth) => ret eth
          | Some None => throw ProviderNotDetected
          end
      end
  end.

Definition SEPOLIA_CHAIN_ID_HEX : string := "0xaa36a7".

Definition sepolia : ChainDescriptor :=
  {| chainId := SEPOLIA_CHAIN_ID_HEX;
     chainName := "Sepolia";
     nativeCurrency := ("Sepolia Ether", "ETH", 18);
     rpcUrls := ["https://rpc.sepolia.org"];
     blockExplorerUrls := ["https://sepolia.etherscan.io"] |}.

(** [err?.code === 4902 || (err?.message ?? '').includes('Unrecognized chain ID')] *)
Definition unknown_chain (e : JsError) : bool :=
  (match err_code e with Some c => c =? 4902 | None => false end)
  || JS.includes (match err_message e with Some m => m | None => "" end)
                 "Unrecognized chain ID".

(** [chainIdHex?.toLowerCase() === SEPOLIA_CHAIN_ID_HEX] *)
Definition on_sepolia (chainIdHex : option string) : bool :=
  match chainIdHex with
  | Some c => String.eqb (JS.toLowerCase c) SEPOLIA_CHAIN_ID_HEX
  | None => false
  end.

Definition switch_chain : RpcRequest := wallet_switchEthereumChain SEPOLIA_CHAIN_ID_HEX.

Definition add_chain : RpcRequest := wallet_addEthereumChain sepolia.

Definition ensureSepoliaNetwork (env : Env) : M unit :=
  chainIdHex <- request env eth_chainId ;;
  if on_sepolia chainIdHex then ret tt
  else
    try_catch
      (request env switch_chain ;;; ret tt)
      (fun e =>
         if unknown_chain e then
           request env add_chain ;;;
           request env switch_chain ;;;
           ret tt
         else throw e).

(** *** connect *)

Definition required : list string :=
  ["getCounter"; "incrementCounter"; "decrementCounter"; "resetCounter"; "owner"].

(** The validation loop: throws at the first required name the handle
    does not answer to. *)
Fixpoint check_required (names : list string) (c : EthersContract) : M unit :=
  match names with
  | [] => ret tt
  | name :: rest =>
      if has_method name c then check_required rest c
      else throw (ContractMethodMissing name)
  end.

Definition connect (env : Env) : M unit :=
  match window env with
  | None => throw NoBrowserContext
  | Some _ =>
      injected <- waitForEthereum env ;;
      match pickMetaMask (Some injected) with
      | None => throw ProviderNotSelected
      | Some mm =>
          ensureSepoliaNetwork env ;;;
          request env eth_requestAccounts ;;;
          write_this (fun s => {| _contract := _contract s;
                                  _provider := Some tt;
                                  _signer := _signer s |}) ;;;
          signer <- await GetSigner (provider_getSigner env) ;;
          write_this (fun s => {| _contract := _contract s;
                                  _provider := _provider s;
                                  _signer := Some signer |}) ;;;
          let contract := {| abi := CounterABI env |} in
          write_this (fun s => {| _contract := Some contract;
                                  _provider := _provider s;
                                  _signer := _signer s |}) ;;;
          check_required required contract
      end
  end.

(** *** Guarded getters *)

Definition getContract : M EthersContract :=
  s <- read_this ;;
  match _contract s with
  | None => throw (NotConnected TheContract)   (* '컨트랙트에 연결되지 않았습니다.' *)
  | Some c => ret c
  end.

Definition getProvider : M unit :=
  s <- read_this ;;
  match _provider s with
  | None => throw (NotConnected TheProvider)   (* '프로바이더에 연결되지 않았습니다.' *)
  | Some p => ret p
  end.

Definition getSigner : M unit :=
  s <- read_this ;;
  match _signer s with
  | None => throw (NotConnected TheSigner)     (* '지갑에 연결되지 않았습니다.' *)
  | Some g => ret g
  end.

(** Invoking [contract.name(...)]: a name outside the ABI is [undefined]
    on the handle, and calling it is a TypeError. *)
Definition invoke {A} (c : EthersContract) (name : string) (body : M A) : M A :=
  if has_method name c then body else throw (TypeError_notAFunction name).

(** *** Reads and writes *)

Definition getCounter (env : Env) : M Z :=
  c <- getContract ;;
  invoke c "getCounter" (await (Call "getCounter") (contract_getCounter env)).

(** [const tx = await contract.name(); const receipt = await tx.wait();
     return receipt?.hash ?? tx.hash] *)
Definition send_and_wait (env : Env) (c : EthersContract) (name : string) : M string :=
  invoke c name
    (tx <- await (Send name) (fun t => contract_send env t name) ;;
     receipt <- await (Wait tx) (fun t => tx_wait env t tx) ;;
     ret (match receipt with Some h => h | None => tx end)).

Definition incrementCounter (env : Env) : M string :=
  c <- getContract ;;
  send_and_wait env c "incrementCounter".

Definition decrementCounter (env : Env) : M string :=
  c <- getContract ;;
  send_and_wait env c "decrementCounter".

Definition resetCounter (env : Env) : M string :=
  contract <- getContract ;;
  owner <- invoke contract "owner" (await (Call "owner") (contract_owner env)) ;;
  getSigner ;;;
  signerAddress <- await GetAddress (signer_getAddress env) ;;
  if negb (String.eqb (JS.toLowerCase owner) (JS.toLowerCase signerAddress))
  then throw Unauthorized   (* '리셋 권한이 없습니다. ...' *)
  else send_and_wait env contract "resetCounter".

Definition getOwner (env : Env) : M string :=
  c <- getContract ;;
  invoke c "owner" (await (Call "owner") (contract_owner env)).

Definition getWalletAddress (env : Env) : M string :=
  getSigner ;;;
  await GetAddress (signer_getAddress env).

Definition getNetworkInfo (env : Env) : M (string * Z) :=
  getProvider ;;;
  await GetNetwork (provider_getNetwork env).

Definition getGasPrice (env : Env) : M string :=
  getProvider ;;;
  fee <- await GetFeeData (provider_getFeeData env) ;;
  ret (match fee with
       | Some g => if g =? 0 then "0" else formatUnits_gwei env g
       | None => "0"
       end).

Definition isConnected (s : CounterContractService) : bool :=
  match _contract s with Some _ => true | None => false end.

End Contract.

(* ===================================================================== *)
(** ** src/components/CounterApp.tsx *)
(* ===================================================================== *)

Module CounterApp.

Import JS Contract.

(** ['increment' | 'decrement' | 'reset'], the type of [animationType],
    and the same with ['initial'], the type of [action]. *)
Inductive Mutation := increment | decrement | reset.

Inductive ActionKind :=
| mutation (m : Mutation)
| initial.

Coercion mutation : Mutation >-> ActionKind.

Definition action_name (k : ActionKind) : string :=
  match k with
  | mutation increment => "increment"
  | mutation decrement => "decrement"
  | mutation reset => "reset"
  | initial => "initial"
  end.

(** An entry of [counterHistory].  The import path stores [action] and
    [txHash] as it finds them in the file, so both are JavaScript values;
    the entries the component itself creates hold an action name and an
    optional transaction hash. *)
Record HistoryEntry := {
  value : Z;
  action : JSValue;
  timestamp : JSDate;
  txHash : JSValue
}.

Definition entry (v : Z) (k : ActionKind) (t : Z) (tx : option string) : HistoryEntry :=
  {| value := v;
     action := Some (JString (action_name k));
     timestamp := ValidDate t;
     txHash := option_map JString tx |}.

(** The messages of [setSuccessMessage] and [setError]. *)
Inductive Notice :=
| WalletConnected
| ActionCompleted (k : Mutation)
| HistoryImported
| GoalSet (v : Z)
| GoalCleared.

Inductive ShownError :=
| Thrown (e : JsError)
| HistoryReadFailed.

(** The [useState] cells ([isDarkMode] and [showHistory], which only drive
    the layout, are left out). *)
Record State := {
  counter : Z;
  isConnected : bool;
  isLoading : bool;
  error : option ShownError;
  successMessage : option Notice;
  owner : string;
  walletAddress : string;
  isOwner : bool;
  transactionHash : option string;
  networkInfo : option (string * Z);
  gasPrice : option string;
  counterAnimation : option Mutation;
  achievement : option Z;
  counterHistory : list HistoryEntry;
  goalValue : option Z
}.

Definition initial_state : State :=
  {| counter := 0; isConnected := false; isLoading := false; error := None;
     successMessage := None; owner := ""; walletAddress := ""; isOwner := false;
     transactionHash := None; networkInfo := None; gasPrice := None;
     counterAnimation := None; achievement := None; counterHistory := [];
     goalValue := None |}.

Definition setCounter (x : Z) (s : State) : State :=
  {| counter := x; isConnected := isConnected s; isLoading := isLoading s;
     error := error s; successMessage := successMessage s; owner := owner s;
     walletAddress := walletAddress s; isOwner := isOwner s;
     transactionHash := transactionHash s; networkInfo := networkInfo s;
     gasPrice := gasPrice s; counterAnimation := counterAnimation s;
     achievement := achievement s; counterHistory := counterHistory s;
     goalValue := goalValue s |}.

Definition setIsConnected (x : bool) (s : State) : State :=
  {| counter := counter s; isConnected := x; isLoading := isLoading s;
     error := error s; successMessage := successMessage s; owner := owner s;
     walletAddress := walletAddress s; isOwner := isOwner s;
     transactionHash := transactionHash s; networkInfo := networkInfo s;
     gasPrice := gasPrice s; counterAnimation := counterAnimation s;
     achievement := achievement s; counterHistory := counterHistory s;
     goalValue := goalValue s |}.

Definition setIsLoading (x : bool) (s : State) : State :=
  {| counter := counter s; isConnected := isConnected s; isLoading := x;
     error := error s; successMessage := successMessage s; owner := owner s;
     walletAddress := walletAddress s; isOwner := isOwner s;
     transactionHash := transactionHash s; networkInfo := networkInfo s;
     gasPrice := gasPrice s; counterAnimation := counterAnimation s;
     achievement := achievement s; counterHistory := counterHistory s;
     goalValue := goalValue s |}.

Definition setError (x : option ShownError) (s : State) : State :=
  {| counter := counter s; isConnected := isConnected s;
     isLoading := isLoading s; error := x;
     successMessage := successMessage s; owner := owner s;
     walletAddress := walletAddress s; isOwner := isOwner s;
     transactionHash := transactionHash s; networkInfo := networkInfo s;
     gasPrice := gasPrice s; counterAnimation := counterAnimation s;
     achievement := achievement s; counterHistory := counterHistory s;
     goalValue := goalValue s |}.

Definition setSuccessMessage (x : option Notice) (s : State) : State :=
  {| counter := counter s; isConnected := isConnected s;
     isLoading := isLoading s; error := error s; successMessage := x;
     owner := owner s; walletAddress := walletAddress s;
     isOwner := isOwner s; transactionHash := transactionHash s;
     networkInfo := networkInfo s; gasPrice := gasPrice s;
     counterAnimation := counterAnimation s; achievement := achievement s;
     counterHistory := counterHistory s; goalValue := goalValue s |}.

Definition setOwner (x : string) (s : State) : State :=
  {| counter := counter s; isConnected := isConnected s;
     isLoading := isLoading s; error := error s;
     successMessage := successMessage s; owner := x;
     walletAddress := walletAddress s; isOwner := isOwner s;
     transactionHash := transactionHash s; networkInfo := networkInfo s;
     gasPrice := gasPrice s; counterAnimation := counterAnimation s;
     achievement := achievement s; counterHistory := counterHistory s;
     goalValue := goalValue s |}.

Definition setWalletAddress (x : string) (s : State) : State :=
  {| counter := counter s; isConnected := isConnected s;
     isLoading := isLoading s; error := error s;
     successMessage := successMessage s; owner := owner s;
     walletAddress := x; isOwner := isOwner s;
     transactionHash := transactionHash s; networkInfo := networkInfo s;
     gasPrice := gasPrice s; counterAnimation := counterAnimation s;
     achievement := achievement s; counterHistory := counterHistory s;
     goalValue := goalValue s |}.

Definition setIsOwner (x : bool) (s : State) : State :=
  {| counter := counter s; isConnected := isConnected s;
     isLoading := isLoading s; error := error s;
     successMessage := successMessage s; owner := owner s;
     walletAddress := walletAddress s; isOwner := x;
     transactionHash := transactionHash s; networkInfo := networkInfo s;
     gasPrice := gasPrice s; counterAnimation := counterAnimation s;
     achievement := achievement s; counterHistory := counterHistory s;
     goalValue := goalValue s |}.

Definition setTransactionHash (x : option string) (s : State) : State :=
  {| counter := counter s; isConnected := isConnected s;
     isLoading := isLoading s; error := error s;
     successMessage := successMessage s; owner := owner s;
     walletAddress := walletAddress s; isOwner := isOwner s;
     transactionHash := x; networkInfo := networkInfo s;
     gasPrice := gasPrice s; counterAnimation := counterAnimation s;
     achievement := achievement s; counterHistory := counterHistory s;
     goalValue := goalValue s |}.

Definition setNetworkInfo (x : option (string * Z)) (s : State) : State :=
  {| counter := counter s; isConnected := isConnected s;
     isLoading := isLoading s; error := error s;
     successMessage := successMessage s; owner := owner s;
     walletAddress := walletAddress s; isOwner := isOwner s;
     transactionHash := transactionHash s; networkInfo := x;
     gasPrice := gasPrice s; counterAnimation := counterAnimation s;
     achievement := achievement s; counterHistory := counterHistory s;
     goalValue := goalValue s |}.

Definition setGasPrice (x : option string) (s : State) : State :=
  {| counter := counter s; isConnected := isConnected s;
     isLoading := isLoading s; error := error s;
     successMessage := successMessage s; owner := owner s;
     walletAddress := walletAddress s; isOwner := isOwner s;
     transactionHash := transactionHash s; networkInfo := networkInfo s;
     gasPrice := x; counterAnimation := counterAnimation s;
     achievement := achievement s; counterHistory := counterHistory s;
     goalValue := goalValue s |}.

Definition setCounterAnimation (x : option Mutation) (s : State) : State :=
  {| counter := counter s; isConnected := isConnected s;
     isLoading := isLoading s; error := error s;
     successMessage := successMessage s; owner := owner s;
     walletAddress := walletAddress s; isOwner := isOwner s;
     transactionHash := transactionHash s; networkInfo := networkInfo s;
     gasPrice := gasPrice s; counterAnimation := x;
     achievement := achievement s; counterHistory := counterHistory s;
     goalValue := goalValue s |}.

Definition setAchievement (x : option Z) (s : State) : State :=
  {| counter := counter s; isConnected := isConnected s;
     isLoading := isLoading s; error := error s;
     successMessage := successMessage s; owner := owner s;
     walletAddress := walletAddress s; isOwner := isOwner s;
     transactionHash := transactionHash s; networkInfo := networkInfo s;
     gasPrice := gasPrice s; counterAnimation := counterAnimation s;
     achievement := x; counterHistory := counterHistory s;
     goalValue := goalValue s |}.

Definition setCounterHistory (x : list HistoryEntry) (s : State) : State :=
  {| counter := counter s; isConnected := isConnected s;
     isLoading := isLoading s; error := error s;
     successMessage := successMessage s; owner := owner s;
     walletAddress := walletAddress s; isOwner := isOwner s;
     transactionHash := transactionHash s; networkInfo := networkInfo s;
     gasPrice := gasPrice s; counterAnimation := counterAnimation s;
     achievement := achievement s; counterHistory := x;
     goalValue := goalValue s |}.

Definition setGoalValue (x : option Z) (s : State) : State :=
  {| counter := counter s; isConnected := isConnected s;
     isLoading := isLoading s; error := error s;
     successMessage := successMessage s; owner := owner s;
     walletAddress := walletAddress s; isOwner := isOwner s;
     transactionHash := transactionHash s; networkInfo := networkInfo s;
     gasPrice := gasPrice s; counterAnimation := counterAnimation s;
     achievement := achievement s; counterHistory := counterHistory s;
     goalValue := x |}.


(** *** Common helpers *)

Definition clearMessages (s : State) : State :=
  setTransactionHash None (setSuccessMessage None (setError None s)).

(** [now] is the value of [new Date()]. *)
Definition addToHistory (v : Z) (k : ActionKind) (tx : option string) (now : Z)
    (s : State) : State :=
  setCounterHistory (counterHistory s ++ [entry v k now tx]) s.

(** [if (txHash) setTransactionHash(txHash)]: the empty string is falsy. *)
Definition showSuccess (msg : Notice) (tx : option string) (s : State) : State :=
  let s := setSuccessMessage (Some msg) s in
  match tx with
  | Some h => if String.eqb h "" then s else setTransactionHash (Some h) s
  | None => s
  end.

(** *** Export and import of the ledger *)

Definition export_entry (h : HistoryEntry) : option JSON :=
  match toISOString (timestamp h) with
  | None => None
  | Some iso =>
      Some (object_literal
              [("value", Some (JString (BigInt_toString (value h))));
               ("action", action h);
               ("timestamp", Some (JString iso));
               ("txHash", txHash h)])
  end.

(** [Array.prototype.map] with a callback that may throw. *)
Fixpoint map_throwing {A B} (f : A -> option B) (l : list A) : option (list B) :=
  match l with
  | [] => Some []
  | a :: r =>
      match f a with
      | None => None
      | Some b =>
          match map_throwing f r with
          | None => None
          | Some bs => Some (b :: bs)
          end
      end
  end.

(** The text handed to the download, or [None] when [toISOString] throws
    and nothing is written. *)
Definition exportHistory (now : Z) (s : State) : option FileText :=
  match map_throwing export_entry (counterHistory s) with
  | None => None
  | Some hs =>
      Some (JSON_stringify
              (object_literal
                 [("history", Some (JArray hs));
                  ("exportedAt", Some (JString (toISOString_at now)))]))
  end.

Definition import_entry (eng : Engine) (h : JSON) : option HistoryEntry :=
  match get h "value", get h "action", get h "timestamp", get h "txHash" with
  | Some v, Some a, Some t, Some tx =>
      match BigInt eng v with
      | None => None
      | Some z =>
          Some {| value := z; action := a; timestamp := Date_new eng t; txHash := tx |}
      end
  | _, _, _, _ => None
  end.

(** What the [try] block of [reader.onload] does. *)
Inductive ImportResult :=
| Imported (l : list HistoryEntry)   (* [setCounterHistory] is reached *)
| Ignored                            (* [data.history] is not an array *)
| Failed.                            (* something threw *)

Definition read_history (eng : Engine) (text : FileText) : ImportResult :=
  match JSON_parse text with
  | None => Failed
  | Some data =>
      match get data "history" with
      | None => Failed
      | Some (Some (JArray items)) =>
          match map_throwing (import_entry eng) items with
          | None => Failed
          | Some l => Imported l
          end
      | Some _ => Ignored
      end
  end.

(** [importHistory]: [file] is [event.target.files?.[0]] read as text. *)
Definition importHistory (eng : Engine) (file : option FileText) (s : State) : State :=
  match file with
  | None => s
  | Some text =>
      match read_history eng text with
      | Imported l => showSuccess HistoryImported None (setCounterHistory l s)
      | Ignored => s
      | Failed => setError (Some HistoryReadFailed) s
      end
  end.

(** *** Goal *)

(** [setGoal]: [input] is what [prompt] returns, [None] when it is
    cancelled.  A throwing [BigInt] leaves the handler without any update. *)
Definition setGoal (eng : Engine) (input : option string) (s : State) : State :=
  match input with
  | None => s
  | Some i =>
      match BigInt eng (Some (JString (if String.eqb i "" then "0" else i))) with
      | None => s
      | Some v => showSuccess (GoalSet v) None (setGoalValue (Some v) s)
      end
  end.

Definition clearGoal (s : State) : State :=
  showSuccess GoalCleared None (setGoalValue None s).

Definition isGoalReached (s : State) : bool :=
  match goalValue s with
  | Some g => g <=? counter s
  | None => false
  end.

(** Truthiness of a [bigint | null]: [null] and [0n] are falsy. *)
Definition truthy (g : option Z) : bool :=
  match g with
  | Some v => negb (v =? 0)
  | None => false
  end.

(** The [useEffect] on [owner] and [walletAddress]. *)
Definition effect_isOwner (s : State) : State :=
  if (negb (String.eqb (owner s) "") && negb (String.eqb (walletAddress s) ""))%bool
  then setIsOwner (String.eqb (toLowerCase (owner s)) (toLowerCase (walletAddress s))) s
  else s.

(** *** Loading data *)

Definition fail (e : JsError) (s : State) : State := setError (Some (Thrown e)) s.

(** [counterHistory.length === 0] is read from [rendered], the state of
    the render the callback was created in.  The updates are functional
    ([setCounterHistory(prev => ...)]) and apply to [s], the state at the
    time the read comes back, which need not be [rendered] any more. *)
Definition loadCounter (env : Env) (rendered : State) (s : State) (h : Heap)
    : State * Heap :=
  match getCounter env h with
  | (Ok currentCounter, h') =>
      let s' := setCounter currentCounter s in
      (match counterHistory rendered with
       | [] => addToHistory currentCounter initial None (now env (trace h')) s'
       | _ => s'
       end, h')
  | (Throw e, h') => (fail e s, h')
  end.

(** The four other loaders log a failure to the console and go on. *)
Definition loadOwner (env : Env) (s : State) (h : Heap) : State * Heap :=
  match getOwner env h with
  | (Ok contractOwner, h') => (effect_isOwner (setOwner contractOwner s), h')
  | (Throw _, h') => (s, h')
  end.

Definition loadWalletAddress (env : Env) (s : State) (h : Heap) : State * Heap :=
  match getWalletAddress env h with
  | (Ok address, h') => (effect_isOwner (setWalletAddress address s), h')
  | (Throw _, h') => (s, h')
  end.

Definition loadNetworkInfo (env : Env) (s : State) (h : Heap) : State * Heap :=
  match getNetworkInfo env h with
  | (Ok network, h') => (setNetworkInfo (Some network) s, h')
  | (Throw _, h') => (s, h')
  end.

Definition loadGasPrice (env : Env) (s : State) (h : Heap) : State * Heap :=
  match getGasPrice env h with
  | (Ok price, h') => (setGasPrice (Some price) s, h')
  | (Throw _, h') => (s, h')
  end.

(** *** Connecting and disconnecting *)

(** Two promises of a [Promise.all]: both calls are started, in array
    order; the result is the pair of values, or a rejection.  When both
    reject, [Promise.all] reports the rejection that comes first in time;
    here it is the one of the earlier array position, so nothing below
    depends on which of two rejections is reported. *)
Definition both {A B} (a : M A) (b : M B) : M (A * B) :=
  fun h =>
    let '(ra, h1) := a h in
    let '(rb, h2) := b h1 in
    (match ra, rb with
     | Ok x, Ok y => Ok (x, y)
     | Throw e, _ => Throw e
     | Ok _, Throw e => Throw e
     end, h2).

Definition Snapshot : Type := Z * (string * (string * ((string * Z) * string))).

Definition read_all (env : Env) : M Snapshot :=
  both (getCounter env)
    (both (getOwner env)
       (both (getWalletAddress env)
          (both (getNetworkInfo env) (getGasPrice env)))).

Definition begin (s : State) : State := setIsLoading true (clearMessages s).

Definition finish (s : State) : State := setIsLoading false s.

(** The updates of [connectWallet] once [Promise.all] has resolved. *)
Definition connected (snap : Snapshot) (now : Z) (s : State) : State :=
  let '(cnt, (own, (addr, (net, gas)))) := snap in
  let s := setCounter cnt s in
  let s := setOwner own s in
  let s := setWalletAddress addr s in
  let s := setNetworkInfo (Some net) s in
  let s := setGasPrice (Some gas) s in
  let s := setIsOwner (String.eqb (toLowerCase own) (toLowerCase addr)) s in
  let s := setCounterHistory [entry cnt initial now None] s in
  showSuccess WalletConnected None s.

Definition connectWallet (env : Env) (s : State) (h : Heap) : State * Heap :=
  let s := begin s in
  match connect env h with
  | (Throw e, h1) => (finish (fail e s), h1)
  | (Ok _, h1) =>
      let s := setIsConnected true s in
      match read_all env h1 with
      | (Throw e, h2) => (finish (fail e s), h2)
      | (Ok snap, h2) => (finish (connected snap (now env (trace h2)) s), h2)
      end
  end.

Definition disconnectWallet (s : State) : State :=
  let s := setIsConnected false s in
  let s := setOwner "" s in
  let s := setWalletAddress "" s in
  let s := setIsOwner false s in
  let s := setCounter 0 s in
  let s := setNetworkInfo None s in
  let s := setGasPrice None s in
  let s := clearMessages s in
  setCounterHistory [] s.

(** *** The action executor *)

(** The updates of [executeCounterAction] after [action()] and the re-read
    have resolved; [goal] is the [goalValue] of the render the callback was
    created in. *)
Definition completed (goal : option Z) (animationType : Mutation)
    (txHash : string) (after now : Z) (s : State) : State :=
  let s := setCounter after s in
  let s := setCounterAnimation (Some animationType) s in
  let s := addToHistory after animationType (Some txHash) now s in
  let s := match goal with
           | Some g => if (truthy goal && (g <=? after))%bool
                       then setAchievement (Some g) s else s
           | None => s
           end in
  showSuccess (ActionCompleted animationType) (Some txHash) s.

Definition executeCounterAction (env : Env) (action : M string)
    (animationType : Mutation) (s : State) (h : Heap) : State * Heap :=
  let goal := goalValue s in
  let s := begin s in
  match (txHash <- action ;; after <- getCounter env ;; ret (txHash, after)) h with
  | (Ok (txHash, after), h') =>
      (finish (completed goal animationType txHash after (now env (trace h')) s), h')
  | (Throw e, h') => (finish (fail e s), h')
  end.

(** The write operation of the service behind each action. *)
Definition service_action (env : Env) (k : Mutation) : M string :=
  match k with
  | increment => Contract.incrementCounter env
  | decrement => Contract.decrementCounter env
  | reset => Contract.resetCounter env
  end.

Definition incrementCounter (env : Env) : State -> Heap -> State * Heap :=
  executeCounterAction env (Contract.incrementCounter env) increment.

Definition decrementCounter (env : Env) : State -> Heap -> State * Heap :=
  executeCounterAction env (Contract.decrementCounter env) decrement.

Definition resetCounter (env : Env) : State -> Heap -> State * Heap :=
  executeCounterAction env (Contract.resetCounter env) reset.

(** *** The boundary: keyboard shortcuts and buttons *)

Inductive KeyEffect :=
| NoEffect
| Run (k : Mutation)
| Dismiss.

(** [handleKeyPress], up to the handler it calls. *)
Definition key_effect (key : string) (s : State) : KeyEffect :=
  if (negb (isConnected s) || isLoading s)%bool then NoEffect
  else if (String.eqb key "+" || String.eqb key "=")%bool then Run increment
  else if String.eqb key "-" then Run decrement
  else if (String.eqb key "r" || String.eqb key "R")%bool
       then (if isOwner s then Run reset else NoEffect)
  else if String.eqb key "Escape" then Dismiss
  else NoEffect.

Definition dismiss (s : State) : State := setSuccessMessage None (setError None s).

Definition handleKeyPress (env : Env) (key : string) (s : State) (h : Heap)
    : State * Heap :=
  match key_effect key s with
  | NoEffect => (s, h)
  | Run k => executeCounterAction env (service_action env k) k s h
  | Dismiss => (dismiss s, h)
  end.

Inductive Button :=
| ConnectButton | DisconnectButton
| IncrementButton | DecrementButton | ResetButton.

(** The branch of the JSX that holds the button. *)
Definition rendered (b : Button) (s : State) : bool :=
  match b with
  | ConnectButton => negb (isConnected s)
  | _ => isConnected s
  end.

(** The [disabled] attribute. *)
Definition disabled (b : Button) (s : State) : bool :=
  match b with
  | ConnectButton | IncrementButton | DecrementButton => isLoading s
  | ResetButton => (isLoading s || negb (isOwner s))%bool
  | DisconnectButton => false
  end.

Definition clickable (b : Button) (s : State) : bool :=
  (rendered b s && negb (disabled b s))%bool.

(** *** The component as an event-driven machine

    Between two [await]s other events are served.  The machine keeps the
    component state together with the handlers that are suspended at an
    [await]; the user and the environment feed it inputs. *)

Inductive Suspended :=
| Connecting                               (* in [counterService.connect()] *)
| Reading                                  (* in [Promise.all([...])] *)
| Acting (goal : option Z) (k : Mutation).   (* in [action()] and the re-read *)

Record Machine := { ui : State; suspended : list Suspended }.

(** [Resolve n snap txHash now]: the [n]-th suspended handler resumes at
    time [now] with the values it awaited: nothing for [connect()], [snap]
    for the five reads, [txHash] and the re-read counter [fst snap] for an
    action.  The last six inputs are the loaders started by the effect on
    [isConnected] coming back; [seen_empty] is whether [loadCounter] was
    created in a render with an empty ledger. *)
Inductive Input :=
| Click (b : Button)
| KeyDown (key : string)
| Resolve (n : nat) (snap : Snapshot) (txHash : string) (now : Z)
| Reject (n : nat) (e : JsError)
| GoalPrompt (eng : Engine) (input : option string)
| ClearGoalClick
| FileChosen (eng : Engine) (file : option FileText)
| CounterLoaded (c : Z) (now : Z) (seen_empty : bool)
| CounterLoadFailed (e : JsError)
| OwnerLoaded (o : string)
| WalletAddressLoaded (a : string)
| NetworkInfoLoaded (network : string * Z)
| GasPriceLoaded (price : string).

Definition initial_machine : Machine := {| ui := initial_state; suspended := [] |}.

Fixpoint remove_nth {A} (n : nat) (l : list A) : list A :=
  match n, l with
  | _, [] => []
  | O, _ :: r => r
  | S n', a :: r => a :: remove_nth n' r
  end.

Fixpoint replace_nth {A} (n : nat) (x : A) (l : list A) : list A :=
  match n, l with
  | _, [] => []
  | O, _ :: r => x :: r
  | S n', a :: r => a :: replace_nth n' x r
  end.

Definition start (k : Mutation) (m : Machine) : Machine :=
  {| ui := begin (ui m);
     suspended := suspended m ++ [Acting (goalValue (ui m)) k] |}.

Definition click (b : Button) (m : Machine) : Machine :=
  if clickable b (ui m) then
    match b with
    | ConnectButton =>
        {| ui := begin (ui m); suspended := suspended m ++ [Connecting] |}
    | DisconnectButton =>
        {| ui := disconnectWallet (ui m); suspended := suspended m |}
    | IncrementButton => start increment m
    | DecrementButton => start decrement m
    | ResetButton => start reset m
    end
  else m.

(** The [n]-th suspended handler resumes with a value ... *)
Definition resolve (n : nat) (snap : Snapshot) (txHash : string) (now : Z)
    (m : Machine) : Machine :=
  match nth_error (suspended m) n with
  | Some Connecting =>
      {| ui := setIsConnected true (ui m);
         suspended := replace_nth n Reading (suspended m) |}
  | Some Reading =>
      {| ui := finish (connected snap now (ui m));
         suspended := remove_nth n (suspended m) |}
  | Some (Acting goal k) =>
      {| ui := finish (completed goal k txHash (fst snap) now (ui m));
         suspended := remove_nth n (suspended m) |}
  | None => m
  end.

(** ... or with an exception. *)
Definition reject (n : nat) (e : JsError) (m : Machine) : Machine :=
  match nth_error (suspended m) n with
  | Some _ =>
      {| ui := finish (fail e (ui m)); suspended := remove_nth n (suspended m) |}
  | None => m
  end.

Definition local (f : State -> State) (m : Machine) : Machine :=
  {| ui := f (ui m); suspended := suspended m |}.

Definition step (m : Machine) (i : Input) : Machine :=
  match i with
  | Click b => click b m
  | KeyDown key =>
      match key_effect key (ui m) with
      | NoEffect => m
      | Run k => start k m
      | Dismiss => local dismiss m
      end
  | Resolve n snap txHash now => resolve n snap txHash now m
  | Reject n e => reject n e m
  | GoalPrompt eng input => local (setGoal eng input) m
  | ClearGoalClick => local clearGoal m
  | FileChosen eng file => local (importHistory eng file) m
  | CounterLoaded c now seen_empty =>
      local (fun s => if seen_empty
                      then addToHistory c initial None now (setCounter c s)
                      else setCounter c s) m
  | CounterLoadFailed e => local (fail e) m
  | OwnerLoaded o => local (fun s => effect_isOwner (setOwner o s)) m
  | WalletAddressLoaded a => local (fun s => effect_isOwner (setWalletAddress a s)) m
  | NetworkInfoLoaded network => local (setNetworkInfo (Some network)) m
  | GasPriceLoaded price => local (setGasPrice (Some price)) m
  end.

Definition run (inputs : list Input) : Machine := fold_left step inputs initial_machine.

(** *** Statistics *)

(** [averagePerDay] is the literal [0] when nothing was changed; otherwise
    it is the double
    [Math.round(totalChanges / Math.max(1, Math.ceil((Date.now() - t) / 86400000)))]
    with [t] the time of the first entry.  That floating-point value is not
    computed here: it is kept as the three numbers it is computed from. *)
Inductive Average :=
| Zero
| RoundedPerDay (totalChanges : nat) (first : JSDate) (now : Z).

Record Statistics := {
  totalChanges : nat;
  increments : nat;
  decrements : nat;
  resets : nat;
  averagePerDay : Average
}.

(** [h.action === name] *)
Definition has_action (name : string) (h : HistoryEntry) : bool :=
  match action h with
  | Some (JString a) => String.eqb a name
  | _ => false
  end.

(** [statistics]; [None] is [null], [now] is [Date.now()]. *)
Definition statistics (now : Z) (history : list HistoryEntry) : option Statistics :=
  match history with
  | [] => None
  | first :: _ =>
      let increments := List.length (filter (has_action "increment") history) in
      let decrements := List.length (filter (has_action "decrement") history) in
      let resets := List.length (filter (has_action "reset") history) in
      let totalChanges := (increments + decrements + resets)%nat in
      Some {| totalChanges := totalChanges;
              increments := increments;
              decrements := decrements;
              resets := resets;
              averagePerDay :=
                if Nat.ltb 0 totalChanges
                then RoundedPerDay totalChanges (timestamp first) now
                else Zero |}
  end.

(** *** Dark mode *)

(** [localStorage], as far as the component uses it: the item stored under
    ['theme'], and whether [getItem] and [setItem] throw (storage switched
    off, quota exceeded). *)
Record LocalStorage := {
  getItem_throws : bool;
  setItem_throws : bool;
  theme_item : option string
}.

(** The [isDarkMode] cell, whether [document.documentElement] carries the
    class ['dark'], and the storage.  The class ['theme-transition'], which
    a timer takes away after 250 ms, is left out. *)
Record Page := {
  isDarkMode : bool;
  dark_class : bool;
  localStorage : LocalStorage
}.

Definition applyTheme (dark : bool) (p : Page) : Page :=
  {| isDarkMode := isDarkMode p; dark_class := dark; localStorage := localStorage p |}.

Definition setIsDarkMode (dark : bool) (p : Page) : Page :=
  {| isDarkMode := dark; dark_class := dark_class p; localStorage := localStorage p |}.

(** [localStorage.setItem('theme', v)] inside [try { } catch { }]. *)
Definition store_theme (v : string) (p : Page) : Page :=
  if setItem_throws (localStorage p) then p
  else {| isDarkMode := isDarkMode p; dark_class := dark_class p;
          localStorage := {| getItem_throws := getItem_throws (localStorage p);
                             setItem_throws := setItem_throws (localStorage p);
                             theme_item := Some v |} |}.

(** The effect run on mount.  [prefersDark] is
    [window.matchMedia?.('(prefers-color-scheme: dark)').matches], [None]
    when [matchMedia] is missing. *)
Definition restoreTheme (prefersDark : option bool) (p : Page) : Page :=
  if getItem_throws (localStorage p) then p
  else
    let preferred := match prefersDark with Some b => b | None => false end in
    let initialDark :=
      match theme_item (localStorage p) with
      | Some stored => if String.eqb stored "" then preferred else String.eqb stored "dark"
      | None => preferred
      end in
    applyTheme initialDark (setIsDarkMode initialDark p).

Definition toggleDarkMode (p : Page) : Page :=
  let next := negb (isDarkMode p) in
  store_theme (if next then "dark" else "light")
    (applyTheme next (setIsDarkMode next p)).

End CounterApp.

(* ===================================================================== *)
(** ** Concrete environments *)
(* ===================================================================== *)

Module Scenarios.

Import JS Contract CounterApp.

Definition metamask : Eip1193Provider := mkProvider true None.

Definition user_rejected : RpcError :=
  {| code := Some 4001; message := Some "User rejected the request." |}.

Definition unrecognized_chain : RpcError :=
  {| code := Some 4902; message := Some "Unrecognized chain ID" |}.

Definition full_abi : list string :=
  ["getCounter"; "incrementCounter"; "decrementCounter"; "resetCounter"; "owner"].

(** A wallet already on Sepolia, a contract whose counter reads [7], owned
    by the connected account (the two addresses differ in letter case). *)
Definition sunny : Env :=
  {| window := Some {| ethereum := Some metamask; ethereum_initialized := None |};
     CounterABI := full_abi;
     rpc := fun _ r => match r with
                       | eth_chainId => inr (Some "0xAA36A7")
                       | _ => inr None
                       end;
     provider_getSigner := fun _ => inr tt;
     contract_getCounter := fun _ => inr 7;
     contract_owner := fun _ => inr "0xABCDEF0123456789abcdef0123456789ABCDEF01";
     contract_send := fun _ _ => inr "0xfeed";
     tx_wait := fun _ tx => inr (Some tx);
     signer_getAddress := fun _ => inr "0xabcdef0123456789abcdef0123456789abcdef01";
     provider_getNetwork := fun _ => inr ("sepolia", 11155111);
     provider_getFeeData := fun _ => inr (Some 1500000000);
     formatUnits_gwei := fun _ => "1.5";
     now := fun t => 1762074000000 + Z.of_nat (List.length t) |}.

Definition with_rpc (f : Trace -> RpcRequest -> RpcError + option string) (env : Env) : Env :=
  {| window := window env; CounterABI := CounterABI env; rpc := f;
     provider_getSigner := provider_getSigner env;
     contract_getCounter := contract_getCounter env;
     contract_owner := contract_owner env;
     contract_send := contract_send env;
     tx_wait := tx_wait env;
     signer_getAddress := signer_getAddress env;
     provider_getNetwork := provider_getNetwork env;
     provider_getFeeData := provider_getFeeData env;
     formatUnits_gwei := formatUnits_gwei env;
     now := now env |}.

Definition with_abi (names : list string) (env : Env) : Env :=
  {| window := window env; CounterABI := names; rpc := rpc env;
     provider_getSigner := provider_getSigner env;
     contract_getCounter := contract_getCounter env;
     contract_owner := contract_owner env;
     contract_send := contract_send env;
     tx_wait := tx_wait env;
     signer_getAddress := signer_getAddress env;
     provider_getNetwork := provider_getNetwork env;
     provider_getFeeData := provider_getFeeData env;
     formatUnits_gwei := formatUnits_gwei env;
     now := now env |}.

Definition with_signer_address (a : string) (env : Env) : Env :=
  {| window := window env; CounterABI := CounterABI env; rpc := rpc env;
     provider_getSigner := provider_getSigner env;
     contract_getCounter := contract_getCounter env;
     contract_owner := contract_owner env;
     contract_send := contract_send env;
     tx_wait := tx_wait env;
     signer_getAddress := fun _ => inr a;
     provider_getNetwork := provider_getNetwork env;
     provider_getFeeData := provider_getFeeData env;
     formatUnits_gwei := formatUnits_gwei env;
     now := now env |}.

(** The wallet is on mainnet and does not know Sepolia; the user accepts
    the registration. *)
Definition unknown_then_added : Env :=
  with_rpc (fun t r =>
              match r with
              | eth_chainId => inr (Some "0x1")
              | wallet_switchEthereumChain _ =>
                  if existsb (fun ev => match ev with
                                        | Rpc (wallet_addEthereumChain _) => true
                                        | _ => false
                                        end) t
                  then inr None else inl unrecognized_chain
              | _ => inr None
              end) sunny.

(** The same wallet, but the user turns the registration down. *)
Definition unknown_then_refused : Env :=
  with_rpc (fun _ r =>
              match r with
              | eth_chainId => inr (Some "0x1")
              | wallet_switchEthereumChain _ => inl unrecognized_chain
              | wallet_addEthereumChain _ => inl user_rejected
              | eth_requestAccounts => inr None
              end) sunny.

(** The user turns the switch itself down. *)
Definition switch_refused : Env :=
  with_rpc (fun _ r =>
              match r with
              | eth_chainId => inr (Some "0x1")
              | wallet_switchEthereumChain _ => inl user_rejected
              | _ => inr None
              end) sunny.

(** The deployed ABI lacks [owner]. *)
Definition no_owner : Env :=
  with_abi ["getCounter"; "incrementCounter"; "decrementCounter"; "resetCounter"] sunny.

(** The connected account is not the owner. *)
Definition stranger : Env :=
  with_signer_address "0x1111111111111111111111111111111111111111" sunny.

Definition fresh : Heap := {| this := new_service; trace := [] |}.

(** The session and the component after a successful [connectWallet]. *)
Definition connected_heap : Heap := snd (connectWallet sunny initial_state fresh).

Definition connected_state : State := fst (connectWallet sunny initial_state fresh).

Definition plain_engine : Engine :=
  {| host_BigInt := fun _ => None; host_Date := fun _ => InvalidDate |}.

(** A component that already holds a ledger entry. *)
Definition used_state : State :=
  addToHistory 3 increment (Some "0xaa") 1000 initial_state.

Definition snapshot : Snapshot :=
  (7, ("0xABCDEF0123456789abcdef0123456789ABCDEF01",
       ("0xabcdef0123456789abcdef0123456789abcdef01", (("sepolia", 11155111), "1.5")))).

(** The connected component after a confirmed increment and a confirmed
    decrement: a ledger of three entries. *)
Definition three_entries : State :=
  fst (CounterApp.decrementCounter sunny
         (fst (CounterApp.incrementCounter sunny connected_state connected_heap))
         (snd (CounterApp.incrementCounter sunny connected_state connected_heap))).

(** A file whose only entry has no timestamp. *)
Definition undated_file : FileText :=
  Parsable (JObject [("history",
                      JArray [JObject [("value", JString "1");
                                       ("action", JString "initial")]])]).

(** The document [{}]. *)
Definition empty_document : FileText := Parsable (JObject []).

(** A file whose only entry gives its value in hexadecimal. *)
Definition hex_file : FileText :=
  Parsable (JObject [("history",
                      JArray [JObject [("value", JString "0x1f");
                                       ("action", JString "increment");
                                       ("timestamp", JString "2025-11-02T09:00:00.123Z")]])]).

(** The deployed ABI declares two of the five names only. *)
Definition sparse_abi : Env := with_abi ["getCounter"; "owner"] sunny.

(** Two wallets are installed; the page sees them through an aggregating
    provider that is itself flagged. *)
Definition two_wallets : Eip1193Provider :=
  mkProvider true (Some [mkProvider false None; metamask; mkProvider true (Some [])]).

(** No wallet is installed and none announces itself. *)
Definition no_wallet : Env :=
  {| window := Some {| ethereum := None; ethereum_initialized := None |};
     CounterABI := CounterABI sunny; rpc := rpc sunny;
     provider_getSigner := provider_getSigner sunny;
     contract_getCounter := contract_getCounter sunny;
     contract_owner := contract_owner sunny;
     contract_send := contract_send sunny;
     tx_wait := tx_wait sunny;
     signer_getAddress := signer_getAddress sunny;
     provider_getNetwork := provider_getNetwork sunny;
     provider_getFeeData := provider_getFeeData sunny;
     formatUnits_gwei := formatUnits_gwei sunny;
     now := now sunny |}.

(** The wallet is unlocked but hands out no signer. *)
Definition no_signer : Env :=
  {| window := window sunny; CounterABI := CounterABI sunny; rpc := rpc sunny;
     provider_getSigner := fun _ => inl user_rejected;
     contract_getCounter := contract_getCounter sunny;
     contract_owner := contract_owner sunny;
     contract_send := contract_send sunny;
     tx_wait := tx_wait sunny;
     signer_getAddress := signer_getAddress sunny;
     provider_getNetwork := provider_getNetwork sunny;
     provider_getFeeData := provider_getFeeData sunny;
     formatUnits_gwei := formatUnits_gwei sunny;
     now := now sunny |}.

(** The user turns every transaction down. *)
Definition tx_refused : Env :=
  {| window := window sunny; CounterABI := CounterABI sunny; rpc := rpc sunny;
     provider_getSigner := provider_getSigner sunny;
     contract_getCounter := contract_getCounter sunny;
     contract_owner := contract_owner sunny;
     contract_send := fun _ _ => inl user_rejected;
     tx_wait := tx_wait sunny;
     signer_getAddress := signer_getAddress sunny;
     provider_getNetwork := provider_getNetwork sunny;
     provider_getFeeData := provider_getFeeData sunny;
     formatUnits_gwei := formatUnits_gwei sunny;
     now := now sunny |}.

(** A first visit in light mode, with working storage. *)
Definition first_visit : Page :=
  {| isDarkMode := false; dark_class := false;
     localStorage := {| getItem_throws := false; setItem_throws := false;
                        theme_item := None |} |}.

(** A browser whose storage can be read but refuses every write. *)
Definition private_mode : Page :=
  {| isDarkMode := false; dark_class := false;
     localStorage := {| getItem_throws := false; setItem_throws := true;
                        theme_item := None |} |}.

(** The user connects, the connection and the first reads resolve, and the
    user presses "+". *)
Definition increment_pressed : list Input :=
  [Click ConnectButton; Resolve 0 snapshot "" 1; Resolve 0 snapshot "" 2; KeyDown "+"].


(** The same with a goal of 7 entered before the key is pressed. *)
Definition goal_pressed : list Input :=
  [Click ConnectButton; Resolve 0 snapshot "" 1; Resolve 0 snapshot "" 2;
   GoalPrompt plain_engine (Some "7"); KeyDown "+"].

End Scenarios.

(* ===================================================================== *)
(** ** Properties of the service *)
(* ===================================================================== *)

Import JS Contract.

Definition is_registration (ev : Event) : bool :=
  match ev with Rpc (wallet_addEthereumChain _) => true | _ => false end.

Definition is_switch (ev : Event) : bool :=
  match ev with Rpc (wallet_switchEthereumChain _) => true | _ => false end.

Definition registrations (t : Trace) : nat := List.length (filter is_registration t).

Definition switches (t : Trace) : nat := List.length (filter is_switch t).

(** The events a computation adds to the log of [h]. *)
Definition issued {A} (c : M A) (h : Heap) : Trace :=
  skipn (List.length (trace h)) (trace (snd (c h))).




(** Decimal digits, for the strings [toString] and [toISOString] write. *)
Definition is_digit (c : ascii) : bool :=
  let n := nat_of_ascii c in (Nat.leb 48 n && Nat.leb n 57)%bool.

Fixpoint digits_only (s : string) : bool :=
  match s with
  | EmptyString => true
  | String c r => (is_digit c && digits_only r)%bool
  end.

(** A field that [JSON.stringify] and [JSON.parse] give back as it is:
    absent, or a value without an infinity in it, such as a string. *)
Definition stable (v : JSValue) : Prop :=
  match v with
  | None => True
  | Some j => serialized j = j
  end.

(** The ledger entries [exportHistory] can write: the timestamp is a valid
    date, the action and the transaction hash are stable.  Every entry the
    component creates itself is of this kind. *)
Definition exportable (h : CounterApp.HistoryEntry) : Prop :=
  (exists t, CounterApp.timestamp h = ValidDate t /\ valid_time t = true) /\
  stable (CounterApp.action h) /\ stable (CounterApp.txHash h).

(** The busy flag is set exactly while one handler is suspended, and no
    second handler is ever suspended next to it. *)
Definition single_flight (m : CounterApp.Machine) : Prop :=
  match CounterApp.suspended m with
  | [] => CounterApp.isLoading (CounterApp.ui m) = false
  | [_] => CounterApp.isLoading (CounterApp.ui m) = true
  | _ => False
  end.

(** A session as [connect] leaves it when it returns: the three handles
    are set and the contract answers to every required name. *)
Definition live (s : CounterContractService) : bool :=
  match _contract s, _provider s, _signer s with
  | Some c, Some _, Some _ => forallb (fun name => has_method name c) required
  | _, _, _ => false
  end.

(** A run of the executor over a list of actions, one after the other. *)
Fixpoint run_actions (env : Env) (ks : list CounterApp.Mutation)
    (s : CounterApp.State) (h : Heap) : CounterApp.State * Heap :=
  match ks with
  | [] => (s, h)
  | k :: rest =>
      let '(s', h') :=
        CounterApp.executeCounterAction env (CounterApp.service_action env k) k s h in
      run_actions env rest s' h'
  end.

(** A page load: the state cell and the document start afresh, the storage
    is what the last visit left. *)
Definition reload (p : CounterApp.Page) : CounterApp.Page :=
  {| CounterApp.isDarkMode := false; CounterApp.dark_class := false;
     CounterApp.localStorage := CounterApp.localStorage p |}.

(** The requests [ensureSepoliaNetwork] goes through, in order, when
    nothing stops it early. *)
Definition enforcer_script : Trace :=
  [Rpc eth_chainId; Rpc switch_chain; Rpc add_chain; Rpc switch_chain].

(** The first required name the ABI does not declare. *)
Definition first_missing (names : list string) : option string :=
  find (fun name => negb (existsb (String.eqb name) names)) required.

(** What was added to the log between [h] and [h']. *)
Definition logged (h h' : Heap) : Trace :=
  skipn (List.length (trace h)) (trace h').

Definition is_send (ev : Event) : bool :=
  match ev with Send _ => true | _ => false end.

(** The transactions submitted in a log. *)
Definition sends (t : Trace) : nat := List.length (filter is_send t).

(** The contract method behind each action. *)
Definition method_of (k : CounterApp.Mutation) : string :=
  match k with
  | CounterApp.increment => "incrementCounter"
  | CounterApp.decrement => "decrementCounter"
  | CounterApp.reset => "resetCounter"
  end.

(** What an action sends when nothing stops it: the two reads of the
    ownership check for a reset, then the transaction [tx] and the wait for
    it. *)
Definition action_script (k : CounterApp.Mutation) (tx : string) : Trace :=
  match k with
  | CounterApp.reset => [Call "owner"; GetAddress]
  | _ => []
  end ++ [Send (method_of k); Wait tx].

(** The five reads of [Promise.all] in [connectWallet], in array order. *)
Definition five_reads : Trace :=
  [Call "getCounter"; Call "owner"; GetAddress; GetNetwork; GetFeeData].

(** The number of changes the statistics panel shows for a ledger. *)
Definition changes (l : list CounterApp.HistoryEntry) : nat :=
  match CounterApp.statistics 0 l with
  | Some st => CounterApp.totalChanges st
  | None => 0%nat
  end.

(** The text [prompt] is opened with in [setGoal]:
    [goalValue?.toString() || '']. *)
Definition prompt_default (s : CounterApp.State) : string :=
  match CounterApp.goalValue s with
  | Some g => if String.eqb (BigInt_toString g) "" then "" else BigInt_toString g
  | None => ""
  end.

(** The ledger holds no entry whose timestamp is an invalid date. *)
Definition dated (l : list CounterApp.HistoryEntry) : bool :=
  forallb (fun e => match CounterApp.timestamp e with
                    | ValidDate _ => true
                    | InvalidDate => false
                    end) l.





(** The inputs that replace the ledger by the content of a file. *)
Definition is_import (i : CounterApp.Input) : bool :=
  match i with CounterApp.FileChosen _ _ => true | _ => false end.

(** The entries the statistics count in none of the three kinds. *)
Definition uncounted (e : CounterApp.HistoryEntry) : bool :=
  negb (CounterApp.has_action "increment" e || CounterApp.has_action "decrement" e
        || CounterApp.has_action "reset" e).

Ltac run_monad :=
  unfold request, await, bind, try_catch, ret, throw, read_this, write_this; simpl.

(** Case analysis on the innermost scrutinee of the goal. *)
Ltac split_cases :=
  repeat match goal with
         | |- context [match ?x with _ => _ end] =>
             lazymatch x with
             | context [match _ with _ => _ end] => fail
             | _ => destruct x; cbn
             end
         end.

Ltac flatten_trace := repeat (rewrite <- app_assoc; simpl).

Ltac close_script :=
  split; [reflexivity|]; split; [now rewrite ?app_nil_r|]; split; [reflexivity|];
  split; [cbn; lia|];
  let Hq := fresh in intros ? Hq; first [discriminate Hq | reflexivity].

(** *** The primitives on a few inputs *)

Example toLowerCase_address : toLowerCase "0xABCdef01" = "0xabcdef01".
Proof. reflexivity. Qed.

Example includes_phrase :
  includes "MetaMask - RPC Error: Unrecognized chain ID 0xaa36a7" "Unrecognized chain ID"
  = true /\
  includes "User rejected the request." "Unrecognized chain ID" = false.
Proof. split; reflexivity. Qed.

Example chain_id_is_compared_in_lower_case :
  on_sepolia (Some "0xAA36A7") = true /\ on_sepolia (Some "0x1") = false /\
  on_sepolia None = false.
Proof. repeat split. Qed.

Example StringToBigInt_samples :
  StringToBigInt "42" = Some 42 /\ StringToBigInt "-42" = Some (-42) /\
  StringToBigInt " 007 " = Some 7 /\ StringToBigInt "" = Some 0 /\
  StringToBigInt "0x1F" = Some 31 /\ StringToBigInt "0b101" = Some 5 /\
  StringToBigInt "1.5" = None /\ StringToBigInt "12n" = None /\
  StringToBigInt "-0x1" = None /\ StringToBigInt "0x" = None.
Proof. repeat split. Qed.

Example BigInt_toString_samples :
  BigInt_toString 0 = "0" /\ BigInt_toString 1200 = "1200" /\
  BigInt_toString (-7) = "-7".
Proof. repeat split. Qed.

Example civil_from_days_samples :
  civil_from_days 0 = (1970, 1, 1) /\ civil_from_days (-1) = (1969, 12, 31) /\
  civil_from_days 11016 = (2000, 2, 29) /\ civil_from_days 20394 = (2025, 11, 2).
Proof. repeat split. Qed.

Example toISOString_samples :
  toISOString_at 0 = "1970-01-01T00:00:00.000Z" /\
  toISOString_at (-1) = "1969-12-31T23:59:59.999Z" /\
  toISOString_at 1762074000123 = "2025-11-02T09:00:00.123Z" /\
  toISOString_at maxTime = "+275760-09-13T00:00:00.000Z" /\
  toISOString_at (- maxTime) = "-271821-04-20T00:00:00.000Z" /\
  toISOString InvalidDate = None.
Proof. repeat split. Qed.

Example pickMetaMask_samples :
  pickMetaMask (Some (mkProvider true None)) = Some (mkProvider true None) /\
  pickMetaMask (Some (mkProvider false None)) = None /\
  pickMetaMask (Some (mkProvider true (Some [mkProvider false None])))  = None /\
  pickMetaMask (Some (mkProvider false (Some [mkProvider false None; mkProvider true None])))
    = Some (mkProvider true None) /\
  pickMetaMask (Some (mkProvider true (Some []))) = Some (mkProvider true (Some [])).
Proof. repeat split. Qed.

(** *** The network enforcer *)

Lemma skipn_app_length {A} (t l : list A) : skipn (List.length t) (t ++ l) = l.
Proof.
  rewrite skipn_app, skipn_all, Nat.sub_diag. reflexivity.
Qed.

Section NetworkEnforcer.

Variable env : Env.
Variable h : Heap.

(** What [ensureSepoliaNetwork] does, request by request. *)
Lemma ensureSepoliaNetwork_run :
  ensureSepoliaNetwork env h =
  match rpc env (trace h) eth_chainId with
  | inl e0 => (Throw (Rejected e0), {| this := this h; trace := (trace h) ++ [Rpc eth_chainId] |})
  | inr c =>
      if on_sepolia c
      then (Ok tt, {| this := this h; trace := (trace h) ++ [Rpc eth_chainId] |})
      else
        match rpc env ((trace h) ++ [Rpc eth_chainId]) switch_chain with
        | inr _ => (Ok tt, {| this := this h;
                              trace := (trace h) ++ [Rpc eth_chainId; Rpc switch_chain] |})
        | inl e =>
            if unknown_chain (Rejected e) then
              match rpc env ((trace h) ++ [Rpc eth_chainId; Rpc switch_chain]) add_chain with
              | inl e2 =>
                  (Throw (Rejected e2),
                   {| this := this h;
                      trace := (trace h) ++ [Rpc eth_chainId; Rpc switch_chain; Rpc add_chain] |})
              | inr _ =>
                  (match rpc env ((trace h) ++ [Rpc eth_chainId; Rpc switch_chain; Rpc add_chain])
                           switch_chain with
                   | inl e3 => Throw (Rejected e3)
                   | inr _ => Ok tt
                   end,
                   {| this := this h;
                      trace := (trace h) ++ [Rpc eth_chainId; Rpc switch_chain;
                                      Rpc add_chain; Rpc switch_chain] |})
              end
            else (Throw (Rejected e),
                  {| this := this h;
                     trace := (trace h) ++ [Rpc eth_chainId; Rpc switch_chain] |})
        end
  end.
Proof.
  unfold ensureSepoliaNetwork. run_monad.
  destruct (rpc env (trace h) eth_chainId) as [e0|c]; [reflexivity|].
  destruct (on_sepolia c); [reflexivity|]. simpl.
  destruct (rpc env (trace h ++ [Rpc eth_chainId]) switch_chain) as [e|?]; simpl;
    flatten_trace; [|reflexivity].
  destruct (unknown_chain (Rejected e)); simpl; [|reflexivity].
  flatten_trace.
  destruct (rpc env (trace h ++ [Rpc eth_chainId; Rpc switch_chain]) add_chain)
    as [e2|?]; simpl; flatten_trace; [reflexivity|].
  destruct (rpc env (trace h ++ [Rpc eth_chainId; Rpc switch_chain; Rpc add_chain])
              switch_chain); reflexivity.
Qed.

(** On the required chain already, the chain-id query is all that is sent. *)
Lemma ensureSepoliaNetwork_noop (c : option string) :
  rpc env (trace h) eth_chainId = inr c -> on_sepolia c = true ->
  fst (ensureSepoliaNetwork env h) = Ok tt /\
  issued (ensureSepoliaNetwork env) h = [Rpc eth_chainId].
Proof.
  intros Hc Hs. unfold issued. rewrite ensureSepoliaNetwork_run, Hc, Hs.
  cbn [fst snd trace]. now rewrite skipn_app_length.
Qed.

(** No execution sends more than one registration or more than two switch
    requests. *)
Lemma ensureSepoliaNetwork_bounded :
  (registrations (issued (ensureSepoliaNetwork env) h) <= 1)%nat /\
  (switches (issued (ensureSepoliaNetwork env) h) <= 2)%nat.
Proof.
  unfold issued. rewrite ensureSepoliaNetwork_run.
  repeat match goal with
         | |- context [match ?x with _ => _ end] => destruct x
         end;
    cbn [fst snd trace]; rewrite skipn_app_length; cbn; lia.
Qed.

(** C7, as amended.  When the switch request is rejected because the chain
    is unknown, one registration request follows; if it is accepted the
    switch is requested once more and that is all, if it is rejected its
    error propagates and no switch is retried.  Any other rejection of the
    switch propagates at once, with its cause, and nothing more is sent.
    No execution sends more than one registration or more than two
    switches. *)
Theorem network_enforcer_registers_once (c : option string) (e : RpcError) :
  rpc env (trace h) eth_chainId = inr c ->
  on_sepolia c = false ->
  rpc env ((trace h) ++ [Rpc eth_chainId]) switch_chain = inl e ->
  let r := fst (ensureSepoliaNetwork env h) in
  let sent := issued (ensureSepoliaNetwork env) h in
  (registrations sent <= 1)%nat /\ (switches sent <= 2)%nat /\
  (unknown_chain (Rejected e) = true ->
     registrations sent = 1%nat /\
     match rpc env ((trace h) ++ [Rpc eth_chainId; Rpc switch_chain]) add_chain with
     | inr _ =>
         sent = [Rpc eth_chainId; Rpc switch_chain; Rpc add_chain; Rpc switch_chain]
     | inl e2 =>
         sent = [Rpc eth_chainId; Rpc switch_chain; Rpc add_chain] /\
         r = Throw (Rejected e2)
     end) /\
  (unknown_chain (Rejected e) = false ->
     sent = [Rpc eth_chainId; Rpc switch_chain] /\ r = Throw (Rejected e)).
Proof.
  intros Hc Hs He. cbv zeta. unfold issued.
  rewrite ensureSepoliaNetwork_run, Hc, Hs, He.
  destruct (unknown_chain (Rejected e)).
  - destruct (rpc env ((trace h) ++ [Rpc eth_chainId; Rpc switch_chain]) add_chain) as [e2|v];
      cbn [fst snd trace]; rewrite skipn_app_length;
      repeat split; try discriminate; cbn; auto.
  - cbn [fst snd trace]. rewrite skipn_app_length.
    repeat split; try discriminate; cbn; auto.
Qed.

End NetworkEnforcer.

(** The theorem at a wallet that learns Sepolia on request. *)
Lemma network_enforcer_registers_once_witness :
  issued (ensureSepoliaNetwork Scenarios.unknown_then_added) Scenarios.fresh
  = [Rpc eth_chainId; Rpc switch_chain; Rpc add_chain; Rpc switch_chain].
Proof.
  destruct (network_enforcer_registers_once
              Scenarios.unknown_then_added Scenarios.fresh
              (Some "0x1") Scenarios.unrecognized_chain
              eq_refl eq_refl eq_refl) as (_ & _ & H & _).
  destruct (H eq_refl) as [_ H']. exact H'.
Defined.

(** C7, as stated, fails when the user turns the registration down: the
    first switch is rejected for an unknown chain, one registration is
    requested, and no switch is retried. *)
Lemma network_enforcer_no_retry_after_refusal :
  rpc Scenarios.unknown_then_refused [Rpc eth_chainId] switch_chain
    = inl Scenarios.unrecognized_chain /\
  unknown_chain (Rejected Scenarios.unrecognized_chain) = true /\
  issued (ensureSepoliaNetwork Scenarios.unknown_then_refused) Scenarios.fresh
    = [Rpc eth_chainId; Rpc switch_chain; Rpc add_chain] /\
  switches (issued (ensureSepoliaNetwork Scenarios.unknown_then_refused) Scenarios.fresh)
    = 1%nat /\
  fst (ensureSepoliaNetwork Scenarios.unknown_then_refused Scenarios.fresh)
    = Throw (Rejected Scenarios.user_rejected).
Proof. repeat split. Qed.

Section Session.

Variable env : Env.

Lemma ensureSepoliaNetwork_this h : this (snd (ensureSepoliaNetwork env h)) = this h.
Proof.
  rewrite ensureSepoliaNetwork_run.
  repeat match goal with
         | |- context [match ?x with _ => _ end] => destruct x
         end; reflexivity.
Qed.

Lemma ensureSepoliaNetwork_throws h e :
  fst (ensureSepoliaNetwork env h) = Throw e -> exists cause, e = Rejected cause.
Proof.
  rewrite ensureSepoliaNetwork_run.
  repeat match goal with
         | |- context [match ?x with _ => _ end] => destruct x
         end; cbn; intros [=]; subst; eauto.
Qed.

Lemma bind_run {A B} (c : M A) (k : A -> M B) h :
  bind c k h = match c h with
               | (Ok a, h') => k a h'
               | (Throw e, h') => (Throw e, h')
               end.
Proof. reflexivity. Qed.

Lemma bind_inv {A B} (c : M A) (k : A -> M B) h r h' :
  bind c k h = (r, h') ->
  (exists e, c h = (Throw e, h') /\ r = Throw e) \/
  (exists a h1, c h = (Ok a, h1) /\ k a h1 = (r, h')).
Proof.
  unfold bind. destruct (c h) as [[a|e] h1]; intros E.
  - right. eauto.
  - left. inversion E; subst. eauto.
Qed.

Lemma await_run {A} (ev : Event) (answer : Trace -> RpcError + A) h :
  await ev answer h =
  (match answer (trace h) with
   | inr a => Ok a
   | inl e => Throw (Rejected e)
   end, {| this := this h; trace := trace h ++ [ev] |}).
Proof. unfold await. destruct (answer (trace h)); reflexivity. Qed.

Lemma await_inv {A} (ev : Event) (answer : Trace -> RpcError + A) h (r : Outcome A) h' :
  await ev answer h = (r, h') ->
  this h' = this h /\ trace h' = trace h ++ [ev] /\
  match r with
  | Ok _ => True
  | Throw e => exists cause, e = Rejected cause
  end.
Proof.
  rewrite await_run. intros E; inversion E; subst; cbn.
  destruct (answer (trace h)); eauto.
Qed.

Lemma waitForEthereum_inv h (r : Outcome Eip1193Provider) h' :
  waitForEthereum env h = (r, h') ->
  h' = h /\
  match r with
  | Ok _ => True
  | Throw e => e = NoBrowserContext \/ e = ProviderNotDetected
  end.
Proof.
  unfold waitForEthereum.
  destruct (window env) as [win|]; [|intros E; inversion E; auto].
  destruct (ethereum win); [intros E; inversion E; auto|].
  destruct (ethereum_initialized win) as [[eth|]|]; intros E; inversion E; auto.
Qed.

Lemma check_required_run names c h :
  check_required names c h =
  match find (fun name => negb (has_method name c)) names with
  | Some name => (Throw (ContractMethodMissing name), h)
  | None => (Ok tt, h)
  end.
Proof.
  induction names as [|name rest IH]; cbn; [reflexivity|].
  destruct (has_method name c); cbn; [exact IH | reflexivity].
Qed.

Lemma find_none_forallb names c :
  find (fun name => negb (has_method name c)) names = None ->
  forallb (fun name => has_method name c) names = true.
Proof.
  induction names as [|name rest IH]; cbn; [reflexivity|].
  destruct (has_method name c); cbn; [exact IH | discriminate].
Qed.

(** The ways [connect] can end.  When it returns, the session is live.
    When the validation loop throws, the handle that failed it is already
    stored.  Every other failure leaves the contract field as it was. *)
Lemma connect_cases h :
  match fst (connect env h) with
  | Ok _ => live (this (snd (connect env h))) = true
  | Throw (ContractMethodMissing name) =>
      this (snd (connect env h))
        = {| _contract := Some {| abi := CounterABI env |};
             _provider := Some tt; _signer := Some tt |}
      /\ has_method name {| abi := CounterABI env |} = false
  | Throw _ => _contract (this (snd (connect env h))) = _contract (this h)
  end.
Proof.
  destruct (connect env h) as [r h'] eqn:E. cbn [fst snd].
  unfold connect in E.
  destruct (window env) as [win|] eqn:W; [|now inversion E].
  apply bind_inv in E as [(e & Ew & ->)|(injected & h0 & Ew & E)];
    apply waitForEthereum_inv in Ew as [-> Ew].
  { destruct Ew as [->| ->]; reflexivity. }
  clear Ew.
  destruct (pickMetaMask (Some injected)) as [mm|]; [|now inversion E].
  apply bind_inv in E as [(e & Ee & ->)|([] & h1 & Ee & E)].
  { pose proof (ensureSepoliaNetwork_this h) as Hthis.
    pose proof (ensureSepoliaNetwork_throws h e) as Hthrow.
    rewrite Ee in Hthis, Hthrow. destruct (Hthrow eq_refl) as [cause ->].
    cbn in *. now rewrite Hthis. }
  assert (H1 : this h1 = this h).
  { pose proof (ensureSepoliaNetwork_this h) as Hthis. now rewrite Ee in Hthis. }
  clear Ee.
  apply bind_inv in E as [(e & Er & ->)|(v & h2 & Er & E)];
    unfold request in Er; apply await_inv in Er as (H2 & _ & Er).
  { destruct Er as [cause ->]. cbn. congruence. }
  clear Er.
  apply bind_inv in E as [(e & Ep & ->)|([] & h3 & Ep & E)]; [discriminate Ep|].
  injection Ep as <-.
  apply bind_inv in E as [(e & Es & ->)|([] & h4 & Es & E)];
    apply await_inv in Es as (H4 & _ & Es).
  { destruct Es as [cause ->]. cbn in *. rewrite H4. cbn. congruence. }
  clear Es.
  apply bind_inv in E as [(e & Ep & ->)|([] & h5 & Ep & E)]; [discriminate Ep|].
  injection Ep as <-.
  apply bind_inv in E as [(e & Ep & ->)|([] & h6 & Ep & E)]; [discriminate Ep|].
  injection Ep as <-.
  rewrite check_required_run in E.
  destruct (find _ required) as [name|] eqn:F; inversion E; subst; clear E;
    cbn [this _contract _provider _signer] in *.
  - rewrite H4. cbn. split; [reflexivity|].
    apply find_some in F. destruct F as [_ F].
    apply negb_true_iff in F. exact F.
  - unfold live. rewrite H4. cbn [_contract _provider _signer].
    now apply find_none_forallb.
Qed.

Lemma connect_ok_live h :
  fst (connect env h) = Ok tt -> live (this (snd (connect env h))) = true.
Proof.
  intros E. pose proof (connect_cases h) as H. now rewrite E in H.
Qed.

(** C1.  A [connect] that fails on a missing method name keeps the contract
    handle it has just built: [isConnected] answers [true] afterwards and
    [getCounter] passes the connection guard. *)
Theorem connect_missing_method_keeps_session h name :
  fst (connect env h) = Throw (ContractMethodMissing name) ->
  Contract.isConnected (this (snd (connect env h))) = true /\
  fst (getCounter env (snd (connect env h))) <> Throw (NotConnected TheContract).
Proof.
  intros E. pose proof (connect_cases h) as H. rewrite E in H.
  destruct H as [Hthis _].
  unfold Contract.isConnected. rewrite Hthis. split; [reflexivity|].
  unfold getCounter, getContract, read_this, bind, ret, throw, invoke.
  rewrite Hthis. cbn [_contract].
  destruct (has_method "getCounter" {| abi := CounterABI env |}); [|discriminate].
  rewrite await_run. cbn [fst].
  destruct (contract_getCounter env _); discriminate.
Qed.

Lemma live_inv s :
  live s = true ->
  exists c, s = {| _contract := Some c; _provider := Some tt; _signer := Some tt |}
            /\ forallb (fun name => has_method name c) required = true.
Proof.
  unfold live. destruct s as [[c|] [[]|] [[]|]]; cbn; try discriminate. eauto.
Qed.

Lemma send_and_wait_run c name h :
  has_method name c = true ->
  send_and_wait env c name h =
  match contract_send env (trace h) name with
  | inl e => (Throw (Rejected e), {| this := this h; trace := trace h ++ [Send name] |})
  | inr tx =>
      (match tx_wait env (trace h ++ [Send name]) tx with
       | inl e => Throw (Rejected e)
       | inr receipt => Ok (match receipt with Some hash => hash | None => tx end)
       end, {| this := this h; trace := trace h ++ [Send name; Wait tx] |})
  end.
Proof.
  intros Hm. unfold send_and_wait, invoke. rewrite Hm, bind_run, await_run.
  destruct (contract_send env (trace h) name) as [e|tx]; [reflexivity|].
  rewrite bind_run, await_run. cbn [this trace]. flatten_trace.
  destruct (tx_wait env _ tx); reflexivity.
Qed.

Lemma resetCounter_run c h :
  this h = {| _contract := Some c; _provider := Some tt; _signer := Some tt |} ->
  has_method "owner" c = true ->
  resetCounter env h =
  match contract_owner env (trace h) with
  | inl e => (Throw (Rejected e), {| this := this h; trace := trace h ++ [Call "owner"] |})
  | inr o =>
      match signer_getAddress env (trace h ++ [Call "owner"]) with
      | inl e => (Throw (Rejected e),
                  {| this := this h; trace := trace h ++ [Call "owner"; GetAddress] |})
      | inr a =>
          if String.eqb (toLowerCase o) (toLowerCase a)
          then send_and_wait env c "resetCounter"
                 {| this := this h; trace := trace h ++ [Call "owner"; GetAddress] |}
          else (Throw Unauthorized,
                {| this := this h; trace := trace h ++ [Call "owner"; GetAddress] |})
      end
  end.
Proof.
  intros Hthis Hm. destruct h as [s t]. cbn [this trace] in *. subst s.
  unfold resetCounter, getContract, getSigner, read_this, invoke.
  rewrite !bind_run. cbn [this _contract ret]. rewrite Hm, bind_run, await_run.
  cbn [this trace].
  destruct (contract_owner env t) as [e|o]; [reflexivity|].
  rewrite !bind_run. cbn [this _signer ret]. rewrite bind_run, await_run. cbn [this trace].
  flatten_trace.
  destruct (signer_getAddress env _) as [e|a]; [reflexivity|].
  destruct (String.eqb (toLowerCase o) (toLowerCase a)); reflexivity.
Qed.

(** C5.  On a live session [resetCounter] reads the owner and the signer
    address anew and compares them in lower case.  When they differ it
    throws [Unauthorized] and has sent nothing but the two reads; when they
    agree up to letter case the reset transaction is submitted next. *)
Theorem reset_requires_owner h (o a : string) :
  live (this h) = true ->
  contract_owner env (trace h) = inr o ->
  signer_getAddress env (trace h ++ [Call "owner"]) = inr a ->
  let r := fst (resetCounter env h) in
  let sent := issued (resetCounter env) h in
  (toLowerCase o <> toLowerCase a ->
     r = Throw Unauthorized /\ sent = [Call "owner"; GetAddress]) /\
  (toLowerCase o = toLowerCase a ->
     r <> Throw Unauthorized /\
     exists rest, sent = [Call "owner"; GetAddress; Send "resetCounter"] ++ rest).
Proof.
  intros Hlive Ho Ha. cbv zeta. unfold issued.
  apply live_inv in Hlive as (c & Hthis & Hreq).
  assert (Hm : has_method "owner" c = true /\ has_method "resetCounter" c = true).
  { cbn in Hreq. repeat (apply andb_prop in Hreq as [? Hreq]). auto. }
  destruct Hm as [Hown Hreset].
  rewrite (resetCounter_run c h Hthis Hown), Ho, Ha.
  split; intros Hcmp.
  - apply String.eqb_neq in Hcmp. rewrite Hcmp. cbn [fst snd trace].
    now rewrite skipn_app_length.
  - apply String.eqb_eq in Hcmp. rewrite Hcmp.
    rewrite (send_and_wait_run c "resetCounter" _ Hreset). cbn [this trace].
    destruct (contract_send env _ "resetCounter") as [e|tx]; cbn [fst snd trace].
    + split; [discriminate|]. exists []. flatten_trace.
      now rewrite skipn_app_length.
    + split; [destruct (tx_wait env _ tx); discriminate|].
      exists [Wait tx]. flatten_trace. now rewrite skipn_app_length.
Qed.

(** The operations of the service never write its fields. *)
Lemma operations_keep_this h :
  this (snd (getCounter env h)) = this h /\
  this (snd (getOwner env h)) = this h /\
  this (snd (getWalletAddress env h)) = this h /\
  this (snd (getNetworkInfo env h)) = this h /\
  this (snd (getGasPrice env h)) = this h /\
  this (snd (Contract.incrementCounter env h)) = this h /\
  this (snd (Contract.decrementCounter env h)) = this h /\
  this (snd (Contract.resetCounter env h)) = this h.
Proof.
  unfold getCounter, getOwner, getWalletAddress, getNetworkInfo, getGasPrice,
    Contract.incrementCounter, Contract.decrementCounter, Contract.resetCounter,
    send_and_wait, getContract, getProvider, getSigner, invoke, read_this,
    await, bind, ret, throw.
  destruct h as [[[c|] [[]|] [[]|]] t]; cbn;
  repeat split; split_cases; reflexivity.
Qed.



End Session.

(** The theorem at an ABI without [owner]: [connect] throws, and yet the
    service reports a connection and reads the counter. *)
Lemma connect_missing_method_keeps_session_witness :
  fst (connect Scenarios.no_owner Scenarios.fresh) = Throw (ContractMethodMissing "owner") /\
  Contract.isConnected (this (snd (connect Scenarios.no_owner Scenarios.fresh))) = true /\
  fst (getCounter Scenarios.no_owner (snd (connect Scenarios.no_owner Scenarios.fresh)))
    <> Throw (NotConnected TheContract) /\
  fst (getCounter Scenarios.no_owner (snd (connect Scenarios.no_owner Scenarios.fresh)))
    = Ok 7.
Proof.
  split; [reflexivity|].
  split; [|split; [|reflexivity]];
    apply (connect_missing_method_keeps_session
             Scenarios.no_owner Scenarios.fresh "owner" eq_refl).
Defined.

(** The theorem at an owner whose address differs from the signer's in
    letter case only: the reset is submitted. *)
Lemma reset_requires_owner_witness :
  exists rest,
    issued (resetCounter Scenarios.sunny) Scenarios.connected_heap
    = [Call "owner"; GetAddress; Send "resetCounter"] ++ rest.
Proof.
  destruct (reset_requires_owner Scenarios.sunny Scenarios.connected_heap
              "0xABCDEF0123456789abcdef0123456789ABCDEF01"
              "0xabcdef0123456789abcdef0123456789abcdef01"
              eq_refl eq_refl eq_refl) as [_ H].
  destruct (H eq_refl) as [_ H']. exact H'.
Defined.

(** A signer that is not the owner is turned away before anything is
    submitted. *)
Example reset_by_stranger :
  fst (resetCounter Scenarios.stranger Scenarios.connected_heap) = Throw Unauthorized /\
  issued (resetCounter Scenarios.stranger) Scenarios.connected_heap
    = [Call "owner"; GetAddress].
Proof. split; reflexivity. Qed.

(* ===================================================================== *)
(** ** Properties of the component *)
(* ===================================================================== *)

Import CounterApp.

(** *** The component while it is disconnected *)










Section Component.

Variable env : Env.



(** *** The executor *)

Lemma executeCounterAction_run (action : M string) (k : Mutation) (s : State) (h : Heap) :
  executeCounterAction env action k s h =
  match action h with
  | (Throw e, h1) => (finish (fail e (begin s)), h1)
  | (Ok txHash, h1) =>
      match getCounter env h1 with
      | (Throw e, h2) => (finish (fail e (begin s)), h2)
      | (Ok after, h2) =>
          (finish (completed (goalValue s) k txHash after (now env (trace h2)) (begin s)), h2)
      end
  end.
Proof.
  unfold executeCounterAction. rewrite bind_run.
  destruct (action h) as [[txHash|e] h1]; [|reflexivity].
  rewrite bind_run.
  destruct (getCounter env h1) as [[after|e] h2]; reflexivity.
Qed.

(** C3.  With the goal set to 0 no action ever surfaces the achievement
    notification, although every counter value has reached that goal. *)
Theorem goal_zero_never_achieved (action : M string) (k : Mutation) (s : State) (h : Heap) :
  goalValue s = Some 0 ->
  achievement (fst (executeCounterAction env action k s h)) = achievement s.
Proof.
  intros Hg. rewrite executeCounterAction_run.
  destruct (action h) as [[txHash|e] h1]; [|reflexivity].
  destruct (getCounter env h1) as [[after|e] h2]; [|reflexivity].
  rewrite Hg. cbn [fst]. unfold completed, showSuccess. cbn [truthy Z.eqb negb andb].
  destruct (String.eqb txHash ""); reflexivity.
Qed.

(** For any other goal the notification is surfaced as soon as a confirmed
    action leaves the counter at or above it. *)
Lemma goal_reached_notifies (action : M string) (k : Mutation) (s : State) (h : Heap)
    (g : Z) (txHash : string) (h1 : Heap) (after : Z) :
  goalValue s = Some g -> g <> 0 ->
  action h = (Ok txHash, h1) ->
  fst (getCounter env h1) = Ok after ->
  g <= after ->
  achievement (fst (executeCounterAction env action k s h)) = Some g.
Proof.
  intros Hg Hnz Ha Hc Hle. rewrite executeCounterAction_run, Ha.
  destruct (getCounter env h1) as [[after'|e] h2]; cbn [fst] in Hc; [|discriminate].
  injection Hc as ->. rewrite Hg. cbn [fst]. unfold completed, showSuccess, truthy.
  apply Z.eqb_neq in Hnz. apply Z.leb_le in Hle. rewrite Hnz, Hle. cbn [negb andb].
  destruct (String.eqb txHash ""); reflexivity.
Qed.

End Component.


(** On a connected component the disconnect button runs [disconnectWallet]
    whether the component is busy or not. *)
Lemma click_disconnect (m : Machine) :
  CounterApp.isConnected (ui m) = true ->
  step m (Click DisconnectButton) = local disconnectWallet m.
Proof.
  intros Hc. cbn [step]. unfold click, clickable, rendered, disabled.
  rewrite Hc. reflexivity.
Qed.

(** An increment that was pending when the user disconnected still
    completes: the flag stays cleared, and the emptied ledger gets its
    entry. *)
Example pending_action_completes_after_disconnect :
  CounterApp.isConnected
    (ui (fold_left step [Resolve 0 Scenarios.snapshot "0xfeed" 9]
           (local disconnectWallet (run Scenarios.increment_pressed)))) = false /\
  counterHistory
    (ui (fold_left step [Resolve 0 Scenarios.snapshot "0xfeed" 9]
           (local disconnectWallet (run Scenarios.increment_pressed))))
  = [entry 7 increment 9 (Some "0xfeed")].
Proof. split; reflexivity. Qed.


(** The theorem at a goal entered as the empty string: the goal is 0, the
    increment is confirmed, the counter reads 7, the goal counts as
    reached, and no achievement is shown. *)
Lemma goal_zero_never_achieved_witness :
  goalValue (setGoal Scenarios.plain_engine (Some "") Scenarios.connected_state) = Some 0 /\
  error (fst (CounterApp.incrementCounter Scenarios.sunny
                (setGoal Scenarios.plain_engine (Some "") Scenarios.connected_state)
                Scenarios.connected_heap)) = None /\
  isGoalReached (fst (CounterApp.incrementCounter Scenarios.sunny
                (setGoal Scenarios.plain_engine (Some "") Scenarios.connected_state)
                Scenarios.connected_heap)) = true /\
  achievement (fst (CounterApp.incrementCounter Scenarios.sunny
                (setGoal Scenarios.plain_engine (Some "") Scenarios.connected_state)
                Scenarios.connected_heap)) = None.
Proof.
  do 3 (split; [reflexivity|]).
  exact (goal_zero_never_achieved Scenarios.sunny
           (Contract.incrementCounter Scenarios.sunny) increment
           (setGoal Scenarios.plain_engine (Some "") Scenarios.connected_state)
           Scenarios.connected_heap eq_refl).
Defined.

(** With the goal 5 the same increment does surface it. *)
Example goal_five_achieved :
  achievement (fst (CounterApp.incrementCounter Scenarios.sunny
                 (setGoal Scenarios.plain_engine (Some "5") Scenarios.connected_state)
                 Scenarios.connected_heap)) = Some 5.
Proof. reflexivity. Qed.

Section Seeding.

Variable env : Env.

Lemma connectWallet_run (s : State) (h : Heap) :
  connectWallet env s h =
  match connect env h with
  | (Throw e, h1) => (finish (fail e (begin s)), h1)
  | (Ok _, h1) =>
      match read_all env h1 with
      | (Throw e, h2) => (finish (fail e (setIsConnected true (begin s))), h2)
      | (Ok snap, h2) =>
          (finish (connected snap (now env (trace h2)) (setIsConnected true (begin s))), h2)
      end
  end.
Proof. reflexivity. Qed.

Lemma counterHistory_connected snap t s :
  counterHistory (connected snap t s) = [entry (fst snap) initial t None].
Proof. destruct snap as (cnt & own & addr & net & gas). reflexivity. Qed.

(** A [connectWallet] that fails leaves the ledger alone. *)
Lemma connectWallet_failure_keeps_ledger (s : State) (h : Heap) :
  error (fst (connectWallet env s h)) <> None ->
  counterHistory (fst (connectWallet env s h)) = counterHistory s.
Proof.
  rewrite connectWallet_run.
  destruct (connect env h) as [[[]|e] h1]; [|reflexivity].
  destruct (read_all env h1) as [[snap|e] h2]; [|reflexivity].
  destruct snap as (cnt & own & addr & net & gas). cbn. congruence.
Qed.

(** C4, as amended.  A successful [connectWallet] sets the ledger to one
    [initial] entry holding the counter value just read, whatever the
    ledger held before: the entries that were there are replaced, not
    kept. *)
Theorem connect_reseeds_ledger (s : State) (h : Heap) (snap : Snapshot) :
  fst (connect env h) = Ok tt ->
  fst (read_all env (snd (connect env h))) = Ok snap ->
  fst (getCounter env (snd (connect env h))) = Ok (fst snap) /\
  counter (fst (connectWallet env s h)) = fst snap /\
  counterHistory (fst (connectWallet env s h))
    = [entry (fst snap) initial (now env (trace (snd (connectWallet env s h)))) None].
Proof.
  intros Hc Hr. rewrite connectWallet_run.
  destruct (connect env h) as [[[]|e] h1]; cbn [fst snd] in *; [|discriminate].
  split.
  - revert Hr. unfold read_all. unfold both at 1.
    destruct (getCounter env h1) as [ra h2].
    destruct (both _ _ h2) as [rb h3].
    destruct ra as [c|e], rb as [rest|e']; cbn; intros [= <-]; reflexivity.
  - destruct (read_all env h1) as [[snap'|e] h2]; cbn [fst snd] in *; [|discriminate].
    injection Hr as ->. split; [|apply counterHistory_connected].
    destruct snap as (cnt & own & addr & net & gas). reflexivity.
Qed.

(** [loadCounter] decides on the ledger of the render it was created in and
    appends to the ledger it finds when the read comes back. *)
Lemma loadCounter_ledger (rendered s : State) (h : Heap) (c : Z) :
  fst (getCounter env h) = Ok c ->
  counterHistory (fst (loadCounter env rendered s h))
    = match counterHistory rendered with
      | [] => counterHistory s
              ++ [entry c initial (now env (trace (snd (loadCounter env rendered s h)))) None]
      | _ => counterHistory s
      end.
Proof.
  intros Hg. unfold loadCounter.
  destruct (getCounter env h) as [[c'|e] h2]; cbn [fst snd] in *; [|discriminate].
  injection Hg as ->. destruct (counterHistory rendered); reflexivity.
Qed.

End Seeding.

(** The theorem at the first connection. *)
Lemma connect_reseeds_ledger_witness :
  counter Scenarios.connected_state = 7 /\
  counterHistory Scenarios.connected_state
    = [entry 7 initial (now Scenarios.sunny (trace Scenarios.connected_heap)) None].
Proof.
  destruct (connect_reseeds_ledger Scenarios.sunny initial_state Scenarios.fresh
              Scenarios.snapshot eq_refl eq_refl) as (_ & H1 & H2).
  split; [exact H1|exact H2].
Defined.

(** A [loadCounter] created before the connection had seeded the ledger
    adds a second [initial] entry when its read comes back afterwards, run
    in one piece and in the running component alike. *)
Example loadCounter_appends_to_current_ledger :
  counterHistory (fst (loadCounter Scenarios.sunny initial_state Scenarios.connected_state
                         Scenarios.connected_heap))
    = [entry 7 initial 1762074000008 None; entry 7 initial 1762074000009 None] /\
  counterHistory (fst (loadCounter Scenarios.sunny Scenarios.connected_state
                         Scenarios.connected_state Scenarios.connected_heap))
    = [entry 7 initial 1762074000008 None] /\
  counterHistory (ui (run [Click ConnectButton;
                           Resolve 0 Scenarios.snapshot "" 1;
                           Resolve 0 Scenarios.snapshot "" 2;
                           CounterLoaded 7 3 true]))
    = [entry 7 initial 2 None; entry 7 initial 3 None].
Proof. repeat split. Qed.

(** C4, as stated, fails: a connection made while the ledger holds an entry
    does not leave that entry in place.  The same happens in the running
    component when the refresh started by the connection seeds the ledger
    before [connectWallet] has finished. *)
Lemma connect_discards_existing_entries :
  counterHistory Scenarios.used_state = [entry 3 increment 1000 (Some "0xaa")] /\
  error (fst (connectWallet Scenarios.sunny Scenarios.used_state Scenarios.fresh)) = None /\
  counterHistory (fst (connectWallet Scenarios.sunny Scenarios.used_state Scenarios.fresh))
    = [entry 7 initial 1762074000008 None] /\
  counterHistory (ui (run [Click ConnectButton;
                           Resolve 0 Scenarios.snapshot "" 1;
                           CounterLoaded 7 2 true]))
    = [entry 7 initial 2 None] /\
  counterHistory (ui (run [Click ConnectButton;
                           Resolve 0 Scenarios.snapshot "" 1;
                           CounterLoaded 7 2 true;
                           Resolve 0 Scenarios.snapshot "" 3]))
    = [entry 7 initial 3 None].
Proof. repeat split. Qed.

(* ===================================================================== *)
(** ** The executor is single-flight *)
(* ===================================================================== *)

Section Executor.

Lemma isLoading_setGoal eng input s : isLoading (setGoal eng input s) = isLoading s.
Proof.
  unfold setGoal. destruct input as [i|]; [|reflexivity].
  destruct (BigInt eng _); reflexivity.
Qed.

Lemma isLoading_importHistory eng file s :
  isLoading (importHistory eng file s) = isLoading s.
Proof.
  unfold importHistory. destruct file as [text|]; [|reflexivity].
  destruct (read_history eng text); reflexivity.
Qed.

Lemma isLoading_effect_isOwner s : isLoading (effect_isOwner s) = isLoading s.
Proof. unfold effect_isOwner. destruct (_ && _)%bool; reflexivity. Qed.

Lemma isLoading_connected snap now s : isLoading (connected snap now s) = isLoading s.
Proof. destruct snap as (cnt & own & addr & net & gas). reflexivity. Qed.

Lemma isLoading_finish s : isLoading (finish s) = false.
Proof. reflexivity. Qed.

Lemma isLoading_begin s : isLoading (begin s) = true.
Proof. reflexivity. Qed.

Lemma length_remove_nth {A} (n : nat) (l : list A) :
  (List.length (remove_nth n l) <= List.length l)%nat.
Proof.
  revert n. induction l as [|a l IH]; intros [|n]; cbn; try lia.
  specialize (IH n). lia.
Qed.

Lemma length_replace_nth {A} (n : nat) (x : A) (l : list A) :
  List.length (replace_nth n x l) = List.length l.
Proof.
  revert n. induction l as [|a l IH]; intros [|n]; cbn; try lia.
  now rewrite IH.
Qed.

(** While the flag is set no key does anything and no button but the
    disconnect button can be pressed. *)
Lemma busy_ignores_triggers (m : Machine) :
  isLoading (ui m) = true ->
  (forall key, step m (KeyDown key) = m) /\
  (forall b, b <> DisconnectButton -> step m (Click b) = m).
Proof.
  intros Hbusy. split.
  - intros key. cbn. unfold key_effect. rewrite Hbusy, orb_true_r. reflexivity.
  - intros b Hb. cbn. unfold click, clickable, disabled. rewrite Hbusy.
    destruct b; try congruence; cbn; rewrite ?andb_false_r; reflexivity.
Qed.

(** A handler is suspended only by an input that arrives while the flag
    is clear. *)
Lemma starts_from_idle (m : Machine) (i : Input) :
  (List.length (suspended m) < List.length (suspended (step m i)))%nat ->
  isLoading (ui m) = false.
Proof.
  destruct (isLoading (ui m)) eqn:Hbusy; [|reflexivity].
  destruct (busy_ignores_triggers m Hbusy) as [Hkey Hclick].
  destruct i as [b|key|n snap tx t|n e|eng input| |eng file|c t b'|e|o|a|net|gas];
    try (cbn; lia).
  - destruct b; try (rewrite Hclick by discriminate; lia).
    cbn. unfold click. destruct (clickable _ _); cbn; lia.
  - rewrite Hkey. lia.
  - cbn. unfold resolve.
    pose proof (length_remove_nth n (suspended m)).
    pose proof (length_replace_nth n Reading (suspended m)).
    destruct (nth_error (suspended m) n) as [[]|]; cbn; lia.
  - cbn. unfold reject.
    pose proof (length_remove_nth n (suspended m)).
    destruct (nth_error (suspended m) n) as [[]|]; cbn; lia.
Qed.

Lemma step_single_flight (m : Machine) (i : Input) :
  single_flight m -> single_flight (step m i).
Proof.
  unfold single_flight. intros Inv.
  destruct m as [s l]. cbn [ui suspended] in *.
  destruct i as [b|key|n snap tx t|n e|eng input| |eng file|c t b'|e|o|a|net|gas];
    cbn [step local ui suspended].
  - unfold click, clickable, rendered, disabled, start. cbn [ui suspended].
    destruct l as [|x [|y l]]; [| |contradiction];
      destruct b; cbn; rewrite ?Inv;
      destruct (CounterApp.isConnected s), (isOwner s); cbn; auto.
  - unfold key_effect, start, local. cbn [ui suspended].
    destruct l as [|x [|y l]]; [| |contradiction]; rewrite Inv;
      rewrite ?orb_true_r, ?orb_false_r; cbn [ui suspended]; auto.
    repeat match goal with
           | |- context [if ?b then _ else _] => destruct b
           end; cbn; auto.
  - unfold resolve. cbn [ui suspended].
    destruct l as [|x [|y l]]; [| |contradiction].
    + destruct n; cbn; exact Inv.
    + destruct n as [|n]; cbn; [|destruct n; exact Inv].
      destruct x; cbn; auto.
  - unfold reject. cbn [ui suspended].
    destruct l as [|x [|y l]]; [| |contradiction].
    + destruct n; cbn; exact Inv.
    + destruct n as [|n]; cbn; [reflexivity|destruct n; exact Inv].
  - rewrite isLoading_setGoal. exact Inv.
  - exact Inv.
  - rewrite isLoading_importHistory. exact Inv.
  - destruct b'; exact Inv.
  - exact Inv.
  - rewrite isLoading_effect_isOwner. exact Inv.
  - rewrite isLoading_effect_isOwner. exact Inv.
  - exact Inv.
  - exact Inv.
Qed.

Lemma fold_single_flight (inputs : list Input) (m : Machine) :
  single_flight m -> single_flight (fold_left step inputs m).
Proof.
  revert m. induction inputs as [|i rest IH]; intros m Inv; cbn; [exact Inv|].
  apply IH, step_single_flight, Inv.
Qed.

Lemma run_single_flight (inputs : list Input) : single_flight (run inputs).
Proof. apply fold_single_flight. reflexivity. Qed.

(** The handler run in one piece clears the flag on each of its three exit
    paths. *)
Lemma executeCounterAction_releases env action k s h :
  isLoading (fst (executeCounterAction env action k s h)) = false.
Proof.
  rewrite executeCounterAction_run.
  destruct (action h) as [[txHash|e] h1]; [|reflexivity].
  destruct (getCounter env h1) as [[after|e] h2]; reflexivity.
Qed.

(** Back in idle, a connected component takes the next action. *)
Lemma idle_accepts_next_action (m : Machine) :
  isLoading (ui m) = false -> CounterApp.isConnected (ui m) = true ->
  step m (Click IncrementButton) = start increment m /\
  step m (KeyDown "-") = start decrement m /\
  isLoading (ui (start increment m)) = true.
Proof.
  intros Hidle Hconn. cbn. unfold click, clickable, key_effect. cbn.
  rewrite Hidle, Hconn. repeat split.
Qed.

(** The guard is at the boundary only: called on a busy component, the
    handler itself goes ahead and submits. *)
Example executor_itself_is_unguarded :
  isLoading (setIsLoading true Scenarios.connected_state) = true /\
  skipn (List.length (trace Scenarios.connected_heap))
    (trace (snd (CounterApp.incrementCounter Scenarios.sunny
                   (setIsLoading true Scenarios.connected_state)
                   Scenarios.connected_heap)))
  = [Send "incrementCounter"; Wait "0xfeed"; Call "getCounter"].
Proof. split; reflexivity. Qed.

(** C6.  In every state the component reaches, at most one handler is
    suspended and the busy flag is set exactly then; while it is set, keys
    and action buttons are ignored; a handler is started only while it is
    clear; and when the suspended action resumes, with a result or with an
    exception, the flag is cleared and nothing is left suspended.  The
    handler run in one piece ends with the flag cleared as well. *)
Theorem executor_single_flight (inputs : list Input) :
  single_flight (run inputs) /\
  (isLoading (ui (run inputs)) = true ->
     (forall key, step (run inputs) (KeyDown key) = run inputs) /\
     (forall b, b <> DisconnectButton -> step (run inputs) (Click b) = run inputs)) /\
  (forall i,
     (List.length (suspended (run inputs)) < List.length (suspended (step (run inputs) i)))%nat ->
     isLoading (ui (run inputs)) = false) /\
  (forall n goal k,
     nth_error (suspended (run inputs)) n = Some (Acting goal k) ->
     forall snap txHash now e,
       isLoading (ui (step (run inputs) (Resolve n snap txHash now))) = false /\
       suspended (step (run inputs) (Resolve n snap txHash now)) = [] /\
       isLoading (ui (step (run inputs) (Reject n e))) = false /\
       suspended (step (run inputs) (Reject n e)) = []) /\
  (forall env action k s h,
     isLoading (fst (executeCounterAction env action k s h)) = false).
Proof.
  pose proof (run_single_flight inputs) as Inv.
  split; [exact Inv|].
  split; [apply busy_ignores_triggers|].
  split; [intros i; apply starts_from_idle|].
  split; [|apply executeCounterAction_releases].
  intros n goal k Hn snap txHash t e.
  unfold single_flight in Inv. cbn [step]. unfold resolve, reject. rewrite Hn.
  destruct (suspended (run inputs)) as [|x [|y l]]; [| |contradiction].
  - destruct n; discriminate.
  - destruct n as [|n]; [|destruct n; discriminate]. repeat split.
Qed.

End Executor.

(** The theorem while an increment is in flight: a second key press is
    ignored, and the confirmation returns the component to idle. *)
Lemma executor_single_flight_witness :
  suspended (run Scenarios.increment_pressed) = [Acting None increment] /\
  step (run Scenarios.increment_pressed) (KeyDown "+") = run Scenarios.increment_pressed /\
  isLoading (ui (step (run Scenarios.increment_pressed)
                   (Resolve 0 (8, snd Scenarios.snapshot) "0xfeed" 3))) = false.
Proof.
  split; [reflexivity|].
  pose proof (executor_single_flight Scenarios.increment_pressed)
    as (_ & Hbusy & _ & Hend & _).
  pose proof (Hbusy eq_refl) as (Hkey & _).
  pose proof (Hend 0%nat None increment eq_refl
                (8, snd Scenarios.snapshot) "0xfeed" 3 NoBrowserContext) as (Hidle & _).
  split; [apply Hkey | exact Hidle].
Defined.

(* ===================================================================== *)
(** ** Properties of the ledger *)
(* ===================================================================== *)

(** *** Writing and reading back a bigint *)

Lemma is_digit_cases c :
  is_digit c = true ->
  (c = "0" \/ c = "1" \/ c = "2" \/ c = "3" \/ c = "4" \/
   c = "5" \/ c = "6" \/ c = "7" \/ c = "8" \/ c = "9")%char.
Proof.
  destruct c as [[] [] [] [] [] [] [] []]; cbn; intros H; try discriminate H; tauto.
Qed.

Lemma digits_only_uint d : digits_only (DecimalString.NilEmpty.string_of_uint d) = true.
Proof. induction d; cbn; auto. Qed.

Lemma digit_not_space c : is_digit c = true -> is_space c = false.
Proof.
  intros H. apply is_digit_cases in H.
  repeat (destruct H as [->|H]; [reflexivity|]). now subst.
Qed.

Lemma trim_start_digits s : digits_only s = true -> trim_start s = s.
Proof.
  destruct s as [|c r]; cbn; [reflexivity|]. intros H.
  apply andb_prop in H as [H _]. now rewrite (digit_not_space c H).
Qed.

Lemma trim_end_digits s : digits_only s = true -> trim_end s = s.
Proof.
  induction s as [|c r IH]; cbn; [reflexivity|]. intros H.
  apply andb_prop in H as [Hc Hr]. rewrite (IH Hr), (digit_not_space c Hc).
  now destruct r.
Qed.

Lemma is_ascii_digits s : digits_only s = true -> is_ascii_text s = true.
Proof.
  induction s as [|c r IH]; cbn; [reflexivity|]. intros H.
  apply andb_prop in H as [Hc Hr]. rewrite (IH Hr), andb_true_r.
  apply is_digit_cases in Hc.
  repeat (destruct Hc as [->|Hc]; [reflexivity|]). now subst.
Qed.

Lemma StringToBigInt_digits s :
  digits_only s = true -> s <> "" -> StringToBigInt s = decimal_value s.
Proof.
  intros H Hne. unfold StringToBigInt, trim.
  rewrite (trim_start_digits s H), (trim_end_digits s H).
  destruct s as [|c1 s1]; [congruence|].
  cbn in H. apply andb_prop in H as [H1 H]. apply is_digit_cases in H1.
  destruct H1 as [->|H1].
  - destruct s1 as [|c2 r]; [reflexivity|].
    cbn in H. apply andb_prop in H as [H2 _]. apply is_digit_cases in H2.
    repeat (destruct H2 as [->|H2]; [reflexivity|]). now subst.
  - repeat (destruct H1 as [->|H1]; [reflexivity|]). now subst.
Qed.

Lemma StringToBigInt_minus s :
  digits_only s = true -> s <> "" ->
  StringToBigInt (String "-" s) = option_map Z.opp (decimal_value s).
Proof.
  intros H Hne. unfold StringToBigInt, trim.
  change (trim_start (String "-" s)) with (String "-" s).
  assert (E : trim_end (String "-" s) = String "-" s).
  { cbn. rewrite (trim_end_digits s H). destruct s; [congruence|reflexivity]. }
  rewrite E. reflexivity.
Qed.

Lemma string_of_uint_nonempty d :
  d <> Decimal.Nil -> DecimalString.NilEmpty.string_of_uint d <> "".
Proof. destruct d; cbn; congruence. Qed.

Lemma decimal_value_to_uint p :
  decimal_value (DecimalString.NilEmpty.string_of_uint (Pos.to_uint p)) = Some (Z.pos p).
Proof.
  pose proof (DecimalPos.Unsigned.to_uint_nonnil p) as Hn.
  unfold decimal_value.
  destruct (DecimalString.NilEmpty.string_of_uint (Pos.to_uint p)) eqn:E.
  - now apply string_of_uint_nonempty in E.
  - rewrite <- E, DecimalString.NilEmpty.usu. cbn.
    unfold Z.of_uint. now rewrite DecimalPos.Unsigned.of_to.
Qed.

Lemma string_of_uint_pos p :
  DecimalString.NilZero.string_of_uint (Pos.to_uint p)
  = DecimalString.NilEmpty.string_of_uint (Pos.to_uint p).
Proof.
  pose proof (DecimalPos.Unsigned.to_uint_nonnil p).
  now destruct (Pos.to_uint p).
Qed.

(** A bigint written by [toString] is read back by [BigInt]. *)
Lemma BigInt_toString_roundtrip eng z :
  BigInt eng (Some (JString (BigInt_toString z))) = Some z.
Proof.
  unfold BigInt, BigInt_toString.
  destruct z as [|p|p]; [reflexivity| |]; cbn [Z.to_int DecimalString.NilZero.string_of_int];
    rewrite string_of_uint_pos;
    pose proof (digits_only_uint (Pos.to_uint p)) as Hd;
    pose proof (string_of_uint_nonempty _ (DecimalPos.Unsigned.to_uint_nonnil p)) as Hne.
  - rewrite (is_ascii_digits _ Hd), (StringToBigInt_digits _ Hd Hne).
    apply decimal_value_to_uint.
  - cbn [is_ascii_text]. rewrite (is_ascii_digits _ Hd). cbn [andb Nat.ltb Nat.leb nat_of_ascii].
    change (Nat.ltb (nat_of_ascii "-") 128) with true. cbn [andb].
    rewrite (StringToBigInt_minus _ Hd Hne), decimal_value_to_uint. reflexivity.
Qed.

(** *** Dates *)

Lemma civil_from_days_spec day :
  let '(y, m, d) := civil_from_days day in
  1 <= m <= 12 /\ 1 <= d <= 31 /\ days_from_civil y m d = day /\
  (day + 719468) / 146097 * 400 <= y <= (day + 719468) / 146097 * 400 + 400.
Proof.
  unfold civil_from_days, days_from_civil.
  set (z := day + 719468).
  set (era := z / 146097). set (doe := z mod 146097).
  assert (Hdoe : 0 <= doe < 146097) by (apply Z.mod_pos_bound; lia).
  assert (Hz : z = 146097 * era + doe) by (apply Z.div_mod; lia).
  set (yoe := (doe - doe / 1460 + doe / 36524 - doe / 146096) / 365).
  assert (Hyoe : 0 <= yoe < 400).
  { subst yoe. clearbody doe. clear -Hdoe. Z.div_mod_to_equations. lia. }
  set (doy := doe - (365 * yoe + yoe / 4 - yoe / 100)).
  assert (Hdoy : 0 <= doy <= 365).
  { subst doy yoe. clearbody doe. clear -Hdoe. Z.div_mod_to_equations. lia. }
  set (mp := (5 * doy + 2) / 153).
  assert (Hmp : 0 <= mp <= 11).
  { subst mp. clearbody doy. clear -Hdoy. Z.div_mod_to_equations. lia. }
  set (d := doy - (153 * mp + 2) / 5 + 1).
  assert (Hd : 1 <= d <= 31).
  { subst d mp. clearbody doy. clear -Hdoy. Z.div_mod_to_equations. lia. }
  set (m := if mp <? 10 then mp + 3 else mp - 9).
  assert (Hm : 1 <= m <= 12 /\ (if m <=? 2 then m + 9 else m - 3) = mp).
  { subst m. destruct (Z.ltb_spec mp 10).
    - destruct (Z.leb_spec (mp + 3) 2); lia.
    - destruct (Z.leb_spec (mp - 9) 2); lia. }
  destruct Hm as [Hm Hmp'].
  assert (Ed : d = doy - (153 * mp + 2) / 5 + 1) by reflexivity.
  assert (Edoy : doy = doe - (365 * yoe + yoe / 4 - yoe / 100)) by reflexivity.
  assert (Ez : z = day + 719468) by reflexivity.
  clearbody yoe doe era z m d mp doy.
  split; [exact Hm|]. split; [exact Hd|].
  assert (Hy : (if m <=? 2 then (if m <=? 2 then yoe + era * 400 + 1 else yoe + era * 400) - 1
                else (if m <=? 2 then yoe + era * 400 + 1 else yoe + era * 400))
               = yoe + era * 400).
  { destruct (m <=? 2); lia. }
  split.
  - rewrite Hy, Hmp'.
    replace ((yoe + era * 400) / 400) with era
      by (apply Z.div_unique with yoe; lia).
    replace ((yoe + era * 400) mod 400) with yoe
      by (apply Z.mod_unique with era; lia).
    lia.
  - destruct (m <=? 2); lia.
Qed.

Lemma digit_char_code n :
  Z.of_nat (nat_of_ascii (digit_char n)) = 48 + n mod 10.
Proof.
  unfold digit_char.
  assert (H : 0 <= n mod 10 < 10) by (apply Z.mod_pos_bound; lia).
  rewrite nat_ascii_embedding by lia. lia.
Qed.

Lemma take_digits_pad w : forall n acc rest,
  take_digits w acc (pad w n ++ rest)%string
  = Some (acc * 10 ^ Z.of_nat w + n mod 10 ^ Z.of_nat w, rest).
Proof.
  induction w as [|w IH]; intros n acc rest.
  - cbn [take_digits pad append]. rewrite Z.mod_1_r. f_equal. f_equal. cbn. lia.
  - cbn [take_digits pad append]. rewrite digit_char_code.
    assert (H : 0 <= (n / 10 ^ Z.of_nat w) mod 10 < 10) by (apply Z.mod_pos_bound; lia).
    replace ((48 <=? 48 + (n / 10 ^ Z.of_nat w) mod 10)
             && (48 + (n / 10 ^ Z.of_nat w) mod 10 <=? 57)) with true
      by (symmetry; apply andb_true_intro; split; apply Z.leb_le; lia).
    rewrite IH. f_equal. f_equal.
    rewrite Nat2Z.inj_succ, Z.pow_succ_r by lia.
    assert (Hp : 0 < 10 ^ Z.of_nat w) by (apply Z.pow_pos_nonneg; lia).
    rewrite (Z.mul_comm 10), Z.rem_mul_r by lia. lia.
Qed.

Lemma take_digits_pad_small w n rest :
  0 <= n < 10 ^ Z.of_nat w ->
  take_digits w 0 (pad w n ++ rest)%string = Some (n, rest).
Proof.
  intros H. rewrite take_digits_pad, Z.mod_small by exact H. reflexivity.
Qed.

Lemma digit_char_is_digit n : is_digit (digit_char n) = true.
Proof.
  unfold is_digit. pose proof (digit_char_code n) as H.
  assert (0 <= n mod 10 < 10) by (apply Z.mod_pos_bound; lia).
  apply andb_true_intro; split; apply Nat.leb_le; lia.
Qed.

Lemma take_year_digit c r :
  is_digit c = true -> take_year (String c r) = take_digits 4 0 (String c r).
Proof.
  intros H. apply is_digit_cases in H.
  repeat (destruct H as [->|H]; [reflexivity|]). now subst.
Qed.

Lemma expect_here c r : expect c (String c r) = Some r.
Proof. cbn. now rewrite Ascii.eqb_refl. Qed.

Lemma take_year_pad y rest :
  - 10 ^ 6 < y < 10 ^ 6 ->
  take_year (year_string y ++ rest)%string = Some (y, rest).
Proof.
  intros Hy. unfold year_string.
  destruct (Z.leb_spec 0 y) as [H0|H0]; cbn [andb].
  - destruct (Z.leb_spec y 9999) as [H1|H1].
    + change (pad 4 y ++ rest)%string
        with (String (digit_char (y / 10 ^ Z.of_nat 3)) (pad 3 y ++ rest)%string).
      rewrite take_year_digit by apply digit_char_is_digit.
      change (String (digit_char (y / 10 ^ Z.of_nat 3)) (pad 3 y ++ rest)%string)
        with (pad 4 y ++ rest)%string.
      apply take_digits_pad_small. cbn. lia.
    + destruct (Z.ltb_spec y 0); [lia|].
      cbn [append take_year]. apply take_digits_pad_small. cbn. lia.
  - destruct (Z.ltb_spec y 0); [|lia].
    cbn [append take_year]. rewrite take_digits_pad_small by (cbn; lia).
    cbn. f_equal. f_equal. lia.
Qed.

(** The string [toISOString] writes for a time value decodes to it. *)
Lemma decode_toISOString t :
  valid_time t = true -> decode_iso (toISOString_at t) = Some t.
Proof.
  intros Hv. unfold valid_time, maxTime in Hv.
  apply andb_prop in Hv as [Hlo Hhi]. apply Z.leb_le in Hlo, Hhi.
  unfold toISOString_at, decode_iso, msPerDay.
  set (day := t / 86400000). set (ms := t mod 86400000).
  assert (Hms : 0 <= ms < 86400000) by (apply Z.mod_pos_bound; lia).
  assert (Ht : t = 86400000 * day + ms) by (apply Z.div_mod; lia).
  assert (Hday : -100000000 <= day <= 100000000) by lia.
  pose proof (civil_from_days_spec day) as Hc.
  destruct (civil_from_days day) as [[y m] d].
  destruct Hc as (Hm & Hd & Hdays & Hy).
  assert (Hera : -690 <= (day + 719468) / 146097 <= 690)
    by (clear -Hday; Z.div_mod_to_equations; lia).
  clearbody day ms.
  rewrite take_year_pad by lia. cbn [bind_opt].
  repeat first
    [ rewrite expect_here; cbn [bind_opt]
    | rewrite take_digits_pad_small; cbn [bind_opt]
    | progress cbn [append] ].
  all: try (cbn; clear -Hm Hd Hms; Z.div_mod_to_equations; lia).
  rewrite Hdays. f_equal. clear -Hms Ht. Z.div_mod_to_equations. lia.
Qed.

Lemma parse_canonical_toISOString t :
  valid_time t = true -> parse_canonical (toISOString_at t) = Some t.
Proof.
  intros Hv. unfold parse_canonical.
  now rewrite (decode_toISOString t Hv), Hv, String.eqb_refl.
Qed.

(** A valid [Date] written by [toISOString] is read back by [new Date]. *)
Lemma Date_new_toISOString eng t :
  valid_time t = true ->
  Date_new eng (Some (JString (toISOString_at t))) = ValidDate t.
Proof.
  intros Hv. unfold Date_new. now rewrite (parse_canonical_toISOString t Hv).
Qed.


(** *** Export and import *)

Section Ledger.

Variable eng : Engine.

Lemma export_import_entry (h : HistoryEntry) :
  exportable h ->
  exists j, export_entry h = Some j /\ serialized j = j /\ import_entry eng j = Some h.
Proof.
  destruct h as [v a ts tx]. unfold exportable. cbn [timestamp action txHash].
  intros ((t & -> & Ht) & Ha & Htx).
  unfold export_entry. cbn [timestamp toISOString value action txHash].
  eexists. split; [reflexivity|].
  destruct a as [a|], tx as [tx|]; cbn [stable] in Ha, Htx;
    cbn [object_literal serialized map]; rewrite ?Ha, ?Htx;
    (split; [reflexivity|]);
    unfold import_entry; cbn [get lookup String.eqb Ascii.eqb Bool.eqb];
    rewrite BigInt_toString_roundtrip, (Date_new_toISOString eng t Ht); reflexivity.
Qed.

Lemma export_import_entries (l : list HistoryEntry) :
  Forall exportable l ->
  exists js, map_throwing export_entry l = Some js /\ map serialized js = js
             /\ map_throwing (import_entry eng) js = Some l.
Proof.
  induction 1 as [|h l Hh Hl IH]; cbn [map_throwing].
  - exists []. repeat split.
  - destruct (export_import_entry h Hh) as (j & Ej & Sj & Ij).
    destruct IH as (js & Ejs & Sjs & Ijs).
    exists (j :: js). rewrite Ej, Ejs. cbn [map map_throwing].
    rewrite Sj, Sjs, Ij, Ijs. repeat split.
Qed.

(** C8, as amended.  A ledger whose entries are exportable is written to a
    file, and importing that file, into whatever state, gives the same
    ledger back: same values, actions, timestamps and transaction
    hashes. *)
Theorem export_import_roundtrip (now : Z) (s s' : State) :
  Forall exportable (counterHistory s) ->
  exists text,
    exportHistory now s = Some text /\
    counterHistory (importHistory eng (Some text) s') = counterHistory s.
Proof.
  intros H. destruct (export_import_entries _ H) as (js & Ejs & Sjs & Ijs).
  unfold exportHistory. rewrite Ejs. eexists. split; [reflexivity|].
  unfold importHistory, read_history, JSON_stringify, JSON_parse.
  cbn [object_literal serialized map get lookup String.eqb Ascii.eqb Bool.eqb].
  rewrite Sjs, Ijs. reflexivity.
Qed.

(** The entries the component creates are exportable whenever the clock
    shows a valid time. *)
Lemma entry_exportable v k t tx : valid_time t = true -> exportable (entry v k t tx).
Proof.
  intros Ht. unfold exportable, entry. cbn [timestamp action txHash].
  split; [eauto|]. split; [reflexivity|]. now destruct tx.
Qed.

Lemma addToHistory_exportable v k tx t s :
  valid_time t = true -> Forall exportable (counterHistory s) ->
  Forall exportable (counterHistory (addToHistory v k tx t s)).
Proof.
  intros Ht Hs. unfold addToHistory. cbn [counterHistory setCounterHistory].
  apply Forall_app. split; [exact Hs|].
  constructor; [now apply entry_exportable | constructor].
Qed.

Lemma showSuccess_counterHistory msg tx s :
  counterHistory (showSuccess msg tx s) = counterHistory s.
Proof.
  unfold showSuccess. destruct tx as [h|]; [|reflexivity].
  destruct (String.eqb h ""); reflexivity.
Qed.

(** C10.  When an import succeeds, the ledger is the list of the imported
    entries, in the order of the file, and nothing of the former ledger is
    left. *)
Theorem import_replaces_ledger (text : FileText) (entries : list HistoryEntry) (s : State) :
  read_history eng text = Imported entries ->
  counterHistory (importHistory eng (Some text) s) = entries /\
  exists doc items,
    text = Parsable doc /\ get doc "history" = Some (Some (JArray items)) /\
    map_throwing (import_entry eng) items = Some entries.
Proof.
  intros H. split.
  - unfold importHistory. rewrite H. apply showSuccess_counterHistory.
  - unfold read_history in H. destruct text as [|doc]; [discriminate|].
    cbn [JSON_parse] in H. exists doc.
    destruct (get doc "history") as [[[]|]|]; try discriminate.
    destruct (map_throwing (import_entry eng) items) as [l|] eqn:E; [|discriminate].
    injection H as <-. eauto.
Qed.

Lemma map_throwing_none {A B} (f : A -> option B) (l : list A) (a : A) :
  In a l -> f a = None -> map_throwing f l = None.
Proof.
  induction l as [|x l IH]; cbn; [tauto|].
  intros [->|Hin] Ha; [now rewrite Ha|].
  destruct (f x); [|reflexivity]. now rewrite (IH Hin Ha).
Qed.

(** An entry is refused exactly when it is [null] or [BigInt] throws at its
    value. *)
Lemma import_entry_none (h : JSON) :
  import_entry eng h = None <->
  h = JNull \/ exists v, get h "value" = Some v /\ BigInt eng v = None.
Proof.
  unfold import_entry. destruct h; cbn [get];
    try (split; [intros H; right; eexists; split; [reflexivity|];
                 now destruct (BigInt eng _)
                |intros [H|(v & H & Hv)]; [discriminate|];
                 injection H as <-; now rewrite Hv]).
  split; [now left | reflexivity].
Qed.

(** C9, as amended.  An input the parser rejects, and an input whose
    history array holds an entry that is [null] or whose value [BigInt]
    rejects, is refused with the read-failure message and leaves the ledger
    as it was.  An input that parses but whose [history] is missing or not
    an array leaves the ledger as it was, too. *)
Theorem malformed_import_keeps_ledger (text : FileText) (s : State) :
  (text = Unparsable \/
   (exists doc items h,
      text = Parsable doc /\ get doc "history" = Some (Some (JArray items)) /\
      In h items /\
      (h = JNull \/ exists v, get h "value" = Some v /\ BigInt eng v = None)) ->
   counterHistory (importHistory eng (Some text) s) = counterHistory s /\
   error (importHistory eng (Some text) s) = Some HistoryReadFailed) /\
  ((exists doc,
      text = Parsable doc /\
      forall items, get doc "history" <> Some (Some (JArray items))) ->
   counterHistory (importHistory eng (Some text) s) = counterHistory s).
Proof.
  split.
  - intros [->|(doc & items & h & -> & Hh & Hin & Hbad)]; [split; reflexivity|].
    apply import_entry_none in Hbad.
    unfold importHistory, read_history. cbn [JSON_parse]. rewrite Hh.
    rewrite (map_throwing_none _ _ _ Hin Hbad). split; reflexivity.
  - intros (doc & -> & Hno).
    unfold importHistory, read_history. cbn [JSON_parse].
    destruct (get doc "history") as [[[]|]|]; try reflexivity.
    now destruct (Hno items).
Qed.

End Ledger.

(** The theorem at a ledger of three entries. *)
Lemma export_import_roundtrip_witness :
  List.length (counterHistory Scenarios.three_entries) = 3%nat /\
  exists text,
    exportHistory 1762074000999 Scenarios.three_entries = Some text /\
    counterHistory (importHistory Scenarios.plain_engine (Some text) initial_state)
      = counterHistory Scenarios.three_entries.
Proof.
  split; [reflexivity|].
  apply (export_import_roundtrip Scenarios.plain_engine 1762074000999
           Scenarios.three_entries initial_state).
  repeat constructor; eexists; split; reflexivity.
Defined.

(** C8, as stated, fails at a ledger the component can hold: importing a
    file whose entry has no timestamp stores an Invalid Date, and exporting
    that ledger throws instead of writing a file. *)
Lemma export_throws_on_invalid_date :
  counterHistory (importHistory Scenarios.plain_engine (Some Scenarios.undated_file)
                    Scenarios.connected_state)
    = [{| value := 1; action := Some (JString "initial");
          timestamp := InvalidDate; txHash := None |}] /\
  exportHistory 1762074000999
    (importHistory Scenarios.plain_engine (Some Scenarios.undated_file)
       Scenarios.connected_state) = None.
Proof. split; reflexivity. Qed.

(** The theorem at a file that holds the ledger of three entries. *)
Lemma import_replaces_ledger_witness :
  counterHistory
    (importHistory Scenarios.plain_engine
       (exportHistory 1762074000999 Scenarios.three_entries) Scenarios.connected_state)
  = counterHistory Scenarios.three_entries.
Proof.
  exact (proj1 (import_replaces_ledger Scenarios.plain_engine
                  (JSON_stringify
                     (object_literal
                        [("history",
                          Some (JArray
                                  (match map_throwing export_entry
                                           (counterHistory Scenarios.three_entries) with
                                   | Some js => js
                                   | None => []
                                   end)));
                         ("exportedAt", Some (JString (toISOString_at 1762074000999)))]))
                  (counterHistory Scenarios.three_entries)
                  Scenarios.connected_state eq_refl)).
Defined.

(** The theorem at a file that does not parse. *)
Lemma malformed_import_keeps_ledger_witness :
  counterHistory (importHistory Scenarios.plain_engine (Some Unparsable)
                    Scenarios.connected_state)
    = counterHistory Scenarios.connected_state /\
  error (importHistory Scenarios.plain_engine (Some Unparsable) Scenarios.connected_state)
    = Some HistoryReadFailed.
Proof.
  exact (proj1 (malformed_import_keeps_ledger Scenarios.plain_engine Unparsable
                  Scenarios.connected_state) (or_introl eq_refl)).
Defined.

(** C9, as stated, fails twice.  The document [{}], which has no [history],
    is not rejected: the handler returns without any message.  And a value
    that is not a decimal string, ["0x1f"], is accepted and read as 31. *)
Lemma malformed_import_not_always_rejected :
  importHistory Scenarios.plain_engine (Some Scenarios.empty_document)
    Scenarios.connected_state = Scenarios.connected_state /\
  error (importHistory Scenarios.plain_engine (Some Scenarios.empty_document)
           Scenarios.connected_state) = None /\
  error (importHistory Scenarios.plain_engine (Some Scenarios.hex_file)
           Scenarios.connected_state) = None /\
  counterHistory (importHistory Scenarios.plain_engine (Some Scenarios.hex_file)
                    Scenarios.connected_state)
    = [{| value := 31; action := Some (JString "increment");
          timestamp := ValidDate 1762074000123; txHash := None |}].
Proof. repeat split. Qed.

(* ===================================================================== *)
(** ** Further properties of the service *)
(* ===================================================================== *)

Section Locator.

Lemma find_first {A} (f : A -> bool) (l : list A) (x : A) :
  find f l = Some x ->
  f x = true /\
  exists before after,
    l = before ++ x :: after /\ forallb (fun y => negb (f y)) before = true.
Proof.
  induction l as [|a l IH]; cbn; [discriminate|].
  destruct (f a) eqn:Fa.
  - intros [= ->]. split; [exact Fa|]. exists [], l. split; reflexivity.
  - intros H. destruct (IH H) as (Hx & before & after & -> & Hb).
    split; [exact Hx|]. exists (a :: before), after. cbn. rewrite Fa, Hb.
    split; reflexivity.
Qed.

Lemma find_no_match {A} (f : A -> bool) (l : list A) :
  forallb (fun y => negb (f y)) l = true -> find f l = None.
Proof.
  induction l as [|a l IH]; cbn; [reflexivity|].
  destruct (f a); cbn; [discriminate|exact IH].
Qed.

(** X1.  [pickMetaMask] only ever returns a provider flagged [isMetaMask].
    When the injected object lists one provider or more, the result is the
    first flagged member of that list, and the flag of the injected object
    itself does not count: if no member is flagged the result is [null].
    Without such a list the result is the injected object itself. *)
Theorem pickMetaMask_first_flagged (injected p : Eip1193Provider) :
  pickMetaMask (Some injected) = Some p ->
  isMetaMask p = true /\
  match providers injected with
  | Some (q :: l) =>
      exists before after,
        q :: l = before ++ p :: after /\
        forallb (fun x => negb (isMetaMask x)) before = true
  | _ => p = injected
  end.
Proof.
  unfold pickMetaMask. destruct (providers injected) as [[|q l]|].
  - destruct (isMetaMask injected) eqn:F; intros [= <-]. auto.
  - intros H. apply find_first in H. exact H.
  - destruct (isMetaMask injected) eqn:F; intros [= <-]. auto.
Qed.

Lemma pickMetaMask_unflagged_list (injected q : Eip1193Provider) (l : list Eip1193Provider) :
  providers injected = Some (q :: l) ->
  forallb (fun x => negb (isMetaMask x)) (q :: l) = true ->
  pickMetaMask (Some injected) = None.
Proof.
  intros Hp Hl. unfold pickMetaMask. rewrite Hp. now apply find_no_match.
Qed.

End Locator.

(** The theorem at two installed wallets. *)
Lemma pickMetaMask_first_flagged_witness :
  isMetaMask Scenarios.metamask = true /\
  exists before after,
    [mkProvider false None; Scenarios.metamask; mkProvider true (Some [])]
      = before ++ Scenarios.metamask :: after /\
    forallb (fun x => negb (isMetaMask x)) before = true.
Proof.
  exact (pickMetaMask_first_flagged Scenarios.two_wallets Scenarios.metamask eq_refl).
Defined.

Section Connecting.

Variable env : Env.

Lemma ensureSepoliaNetwork_trace h :
  trace (snd (ensureSepoliaNetwork env h))
  = trace h ++ issued (ensureSepoliaNetwork env) h.
Proof.
  unfold issued. rewrite ensureSepoliaNetwork_run.
  repeat match goal with
         | |- context [match ?x with _ => _ end] => destruct x
         end;
    cbn [fst snd trace]; now rewrite skipn_app_length.
Qed.

Lemma in_firstn {A} (x : A) (n : nat) (l : list A) : In x (firstn n l) -> In x l.
Proof.
  revert l. induction n as [|n IH]; intros [|a l]; cbn; try tauto.
  intros [->|H]; [now left|right; now apply IH].
Qed.

Lemma enforcer_issued_prefix h :
  exists n, (1 <= n <= 4)%nat /\
            issued (ensureSepoliaNetwork env) h = firstn n enforcer_script.
Proof.
  unfold issued. rewrite ensureSepoliaNetwork_run.
  repeat match goal with
         | |- context [match ?x with _ => _ end] => destruct x
         end;
    cbn [fst snd trace]; rewrite skipn_app_length;
    first [ exists 1%nat; split; [lia|reflexivity]
          | exists 2%nat; split; [lia|reflexivity]
          | exists 3%nat; split; [lia|reflexivity]
          | exists 4%nat; split; [lia|reflexivity] ].
Qed.

(** X7.  Whatever the wallet answers, [ensureSepoliaNetwork] sends an
    initial part of one fixed sequence: the chain-id query, a switch, a
    registration, a second switch.  So it always starts with the query,
    never registers before a switch was tried, never sends more than one
    registration or two switches, and it never writes a field of the
    service. *)
Theorem enforcer_follows_script h :
  (exists n, (1 <= n <= 4)%nat /\
             issued (ensureSepoliaNetwork env) h = firstn n enforcer_script) /\
  (registrations (issued (ensureSepoliaNetwork env) h) <= 1)%nat /\
  (switches (issued (ensureSepoliaNetwork env) h) <= 2)%nat /\
  this (snd (ensureSepoliaNetwork env h)) = this h.
Proof.
  destruct (enforcer_issued_prefix h) as (n & Hn & Hi).
  split; [eauto|]. rewrite Hi.
  split; [|split; [|apply ensureSepoliaNetwork_this]];
    destruct n as [|[|[|[|[|n]]]]]; cbn; lia.
Qed.

(** X8.  On the required chain already (the chain id is compared in lower
    case), a call sends the chain-id query and nothing else, and so does a
    second call right after it. *)
Theorem enforcer_twice_on_sepolia h c1 c2 :
  rpc env (trace h) eth_chainId = inr c1 -> on_sepolia c1 = true ->
  rpc env (trace h ++ [Rpc eth_chainId]) eth_chainId = inr c2 -> on_sepolia c2 = true ->
  fst ((ensureSepoliaNetwork env ;;; ensureSepoliaNetwork env) h) = Ok tt /\
  issued (ensureSepoliaNetwork env ;;; ensureSepoliaNetwork env) h
    = [Rpc eth_chainId; Rpc eth_chainId].
Proof.
  intros H1 S1 H2 S2. unfold issued. rewrite bind_run.
  rewrite ensureSepoliaNetwork_run, H1, S1.
  rewrite ensureSepoliaNetwork_run. cbn [this trace]. rewrite H2, S2.
  cbn [fst snd trace]. rewrite <- app_assoc, skipn_app_length. split; reflexivity.
Qed.

(** [connect], once a flagged provider is at hand. *)
Lemma connect_run h win injected mm :
  window env = Some win ->
  fst (waitForEthereum env h) = Ok injected ->
  pickMetaMask (Some injected) = Some mm ->
  connect env h =
  match ensureSepoliaNetwork env h with
  | (Throw e, h1) => (Throw e, h1)
  | (Ok _, h1) =>
      match rpc env (trace h1) eth_requestAccounts with
      | inl e => (Throw (Rejected e),
                  {| this := this h1; trace := trace h1 ++ [Rpc eth_requestAccounts] |})
      | inr _ =>
          match provider_getSigner env (trace h1 ++ [Rpc eth_requestAccounts]) with
          | inl e =>
              (Throw (Rejected e),
               {| this := {| _contract := _contract (this h1); _provider := Some tt;
                             _signer := _signer (this h1) |};
                  trace := trace h1 ++ [Rpc eth_requestAccounts; GetSigner] |})
          | inr _ =>
              (match first_missing (CounterABI env) with
               | Some name => Throw (ContractMethodMissing name)
               | None => Ok tt
               end,
               {| this := {| _contract := Some {| abi := CounterABI env |};
                             _provider := Some tt; _signer := Some tt |};
                  trace := trace h1 ++ [Rpc eth_requestAccounts; GetSigner] |})
          end
      end
  end.
Proof.
  intros W Hw Hp. unfold connect. rewrite W, bind_run.
  destruct (waitForEthereum env h) as [r h0] eqn:Ew.
  destruct (waitForEthereum_inv env h r h0 Ew) as [-> _].
  cbn [fst] in Hw. subst r. rewrite Hp, bind_run.
  destruct (ensureSepoliaNetwork env h) as [[[]|e] h1]; [|reflexivity].
  unfold request. rewrite bind_run, await_run.
  destruct (rpc env (trace h1) eth_requestAccounts) as [e|v]; [reflexivity|].
  rewrite bind_run. unfold write_this at 1. cbn [this trace].
  rewrite bind_run, await_run. cbn [this trace]. flatten_trace.
  destruct (provider_getSigner env _) as [e|[]]; [reflexivity|].
  rewrite !bind_run. unfold write_this. cbn [this trace _contract _provider _signer].
  unfold bind, first_missing, has_method, ret, throw. cbn [abi find required negb].
  repeat match goal with
         | |- context [existsb ?f ?l] => destruct (existsb f l); cbn [negb]
         end; reflexivity.
Qed.

(** A [connect] that returned had a flagged provider at hand. *)
Lemma connect_located h (r : Outcome unit) :
  fst (connect env h) = r ->
  (r = Throw NoBrowserContext \/ r = Throw ProviderNotDetected
   \/ r = Throw ProviderNotSelected) /\ snd (connect env h) = h
  \/ exists win injected mm,
       window env = Some win /\ fst (waitForEthereum env h) = Ok injected /\
       pickMetaMask (Some injected) = Some mm.
Proof.
  intros <-. unfold connect.
  destruct (window env) as [win|] eqn:W; [|left; auto].
  rewrite bind_run.
  destruct (waitForEthereum env h) as [[injected|e] h0] eqn:Ew;
    destruct (waitForEthereum_inv env h _ h0 Ew) as [-> He].
  - destruct (pickMetaMask (Some injected)) as [mm|] eqn:Hp.
    + right. exists win, injected, mm. auto.
    + left. cbn. auto.
  - left. cbn. destruct He as [->| ->]; auto.
Qed.

(** X2.  When no flagged provider can be located, [connect] fails with one
    of the three locator errors, sends nothing and leaves the service as it
    was. *)
Theorem connect_without_wallet_sends_nothing h :
  (forall injected, fst (waitForEthereum env h) = Ok injected ->
                    pickMetaMask (Some injected) = None) ->
  connect env h = (Throw NoBrowserContext, h)
  \/ connect env h = (Throw ProviderNotDetected, h)
  \/ connect env h = (Throw ProviderNotSelected, h).
Proof.
  intros Hnone.
  destruct (connect_located h _ eq_refl) as [[Hr Hh]|(win & injected & mm & _ & Hw & Hp)].
  - destruct (connect env h) as [r h']. cbn [fst snd] in *. subst h'.
    destruct Hr as [->|[->| ->]]; auto.
  - rewrite (Hnone injected Hw) in Hp. discriminate.
Qed.

(** X3.  An error of the network enforcer comes out of [connect] as it is;
    the account request is not sent and the service is left as it was. *)
Theorem connect_propagates_network_error h injected mm e :
  fst (waitForEthereum env h) = Ok injected ->
  pickMetaMask (Some injected) = Some mm ->
  fst (ensureSepoliaNetwork env h) = Throw e ->
  fst (connect env h) = Throw e /\
  this (snd (connect env h)) = this h /\
  issued (connect env) h = issued (ensureSepoliaNetwork env) h /\
  ~ In (Rpc eth_requestAccounts) (issued (connect env) h).
Proof.
  intros Hw Hp He.
  assert (W : exists win, window env = Some win).
  { unfold waitForEthereum in Hw. destruct (window env); [eauto|discriminate]. }
  destruct W as [win W].
  assert (Hi : issued (connect env) h = issued (ensureSepoliaNetwork env) h).
  { unfold issued. rewrite (connect_run h win injected mm W Hw Hp).
    destruct (ensureSepoliaNetwork env h) as [[[]|e'] h1]; [discriminate|reflexivity]. }
  rewrite Hi. rewrite (connect_run h win injected mm W Hw Hp).
  pose proof (ensureSepoliaNetwork_this env h) as Hthis.
  pose proof (ensureSepoliaNetwork_run env h) as Hrun.
  destruct (ensureSepoliaNetwork env h) as [[[]|e'] h1] eqn:E; cbn [fst snd] in *;
    [discriminate|].
  injection He as ->. repeat split; [exact Hthis|].
  fold (issued (ensureSepoliaNetwork env) h) in *. clear Hrun.
  destruct (enforcer_issued_prefix h) as (n & Hn & ->).
  intros Hin. apply in_firstn in Hin. cbn in Hin.
  intuition discriminate.
Qed.

(** X4.  A [connect] that returns has sent what the network enforcer sent,
    then the account request, then the signer request, and nothing else; the
    enforcer returned, the ABI declares every required name, and the three
    handles are bound. *)
Theorem connect_success_trace h :
  fst (connect env h) = Ok tt ->
  fst (ensureSepoliaNetwork env h) = Ok tt /\
  issued (connect env) h
    = issued (ensureSepoliaNetwork env) h ++ [Rpc eth_requestAccounts; GetSigner] /\
  first_missing (CounterABI env) = None /\
  this (snd (connect env h))
    = {| _contract := Some {| abi := CounterABI env |};
         _provider := Some tt; _signer := Some tt |}.
Proof.
  intros Hok.
  destruct (connect_located h _ Hok) as [[Hr _]|(win & injected & mm & W & Hw & Hp)].
  { destruct Hr as [Hr|[Hr|Hr]]; discriminate. }
  unfold issued at 1. revert Hok. rewrite (connect_run h win injected mm W Hw Hp).
  pose proof (ensureSepoliaNetwork_trace h) as Ht.
  destruct (ensureSepoliaNetwork env h) as [[[]|e] h1]; cbn [fst snd] in *;
    [|discriminate].
  destruct (rpc env (trace h1) eth_requestAccounts) as [e|v]; [discriminate|].
  destruct (provider_getSigner env _) as [e|[]]; [discriminate|].
  destruct (first_missing (CounterABI env)) as [name|]; [discriminate|].
  intros _. cbn [fst snd trace this]. rewrite Ht, <- app_assoc, skipn_app_length.
  repeat split.
Qed.

(** X5.  Once the wallet has granted network, accounts and signer, [connect]
    returns exactly when the ABI declares all five required names, and
    otherwise throws naming the first one missing, in the order getCounter,
    incrementCounter, decrementCounter, resetCounter, owner. *)
Theorem connect_names_first_missing h injected mm v :
  fst (waitForEthereum env h) = Ok injected ->
  pickMetaMask (Some injected) = Some mm ->
  fst (ensureSepoliaNetwork env h) = Ok tt ->
  rpc env (trace (snd (ensureSepoliaNetwork env h))) eth_requestAccounts = inr v ->
  provider_getSigner env
    (trace (snd (ensureSepoliaNetwork env h)) ++ [Rpc eth_requestAccounts]) = inr tt ->
  fst (connect env h)
  = match first_missing (CounterABI env) with
    | Some name => Throw (ContractMethodMissing name)
    | None => Ok tt
    end.
Proof.
  intros Hw Hp He Ha Hs.
  assert (W : exists win, window env = Some win).
  { unfold waitForEthereum in Hw. destruct (window env); [eauto|discriminate]. }
  destruct W as [win W].
  rewrite (connect_run h win injected mm W Hw Hp).
  destruct (ensureSepoliaNetwork env h) as [[[]|e] h1]; cbn [fst snd] in *;
    [|discriminate].
  rewrite Ha, Hs. reflexivity.
Qed.

(** X6.  When the signer request is rejected, [connect] throws that
    rejection after having stored the provider: on a service that was
    unbound the contract stays unbound, so [isConnected] is [false] and
    [getCounter] fails on its guard, but [getNetworkInfo] passes its
    guard. *)
Theorem connect_without_signer_binds_provider h injected mm v e :
  this h = new_service ->
  fst (waitForEthereum env h) = Ok injected ->
  pickMetaMask (Some injected) = Some mm ->
  fst (ensureSepoliaNetwork env h) = Ok tt ->
  rpc env (trace (snd (ensureSepoliaNetwork env h))) eth_requestAccounts = inr v ->
  provider_getSigner env
    (trace (snd (ensureSepoliaNetwork env h)) ++ [Rpc eth_requestAccounts]) = inl e ->
  fst (connect env h) = Throw (Rejected e) /\
  this (snd (connect env h))
    = {| _contract := None; _provider := Some tt; _signer := None |} /\
  Contract.isConnected (this (snd (connect env h))) = false /\
  fst (getCounter env (snd (connect env h))) = Throw (NotConnected TheContract) /\
  fst (getNetworkInfo env (snd (connect env h))) <> Throw (NotConnected TheProvider).
Proof.
  intros Hnew Hw Hp He Ha Hs.
  assert (W : exists win, window env = Some win).
  { unfold waitForEthereum in Hw. destruct (window env); [eauto|discriminate]. }
  destruct W as [win W].
  rewrite (connect_run h win injected mm W Hw Hp).
  pose proof (ensureSepoliaNetwork_this env h) as Hthis.
  destruct (ensureSepoliaNetwork env h) as [[[]|e'] h1]; cbn [fst snd] in *;
    [|discriminate].
  rewrite Ha, Hs, Hthis, Hnew. cbn [fst snd this _contract _signer new_service].
  repeat split.
  unfold getNetworkInfo, getProvider, read_this, bind, ret, throw. cbn [this _provider].
  rewrite await_run. cbn [fst]. destruct (provider_getNetwork env _); discriminate.
Qed.

End Connecting.

(** The theorem at a page without any wallet. *)
Lemma connect_without_wallet_sends_nothing_witness :
  connect Scenarios.no_wallet Scenarios.fresh = (Throw ProviderNotDetected, Scenarios.fresh).
Proof.
  destruct (connect_without_wallet_sends_nothing Scenarios.no_wallet Scenarios.fresh)
    as [H|[H|H]]; [intros injected Hw; discriminate Hw|discriminate H|exact H|discriminate H].
Defined.

(** The theorem at a user who turns the network switch down. *)
Lemma connect_propagates_network_error_witness :
  fst (connect Scenarios.switch_refused Scenarios.fresh)
    = Throw (Rejected Scenarios.user_rejected) /\
  this (snd (connect Scenarios.switch_refused Scenarios.fresh)) = new_service.
Proof.
  destruct (connect_propagates_network_error Scenarios.switch_refused Scenarios.fresh
              Scenarios.metamask Scenarios.metamask (Rejected Scenarios.user_rejected)
              eq_refl eq_refl eq_refl) as (H1 & H2 & _).
  split; assumption.
Defined.

(** The theorem at the first connection. *)
Lemma connect_success_trace_witness :
  issued (connect Scenarios.sunny) Scenarios.fresh
  = issued (ensureSepoliaNetwork Scenarios.sunny) Scenarios.fresh
    ++ [Rpc eth_requestAccounts; GetSigner].
Proof.
  destruct (connect_success_trace Scenarios.sunny Scenarios.fresh eq_refl)
    as (_ & H & _).
  exact H.
Defined.

(** The theorem at an ABI that declares getCounter and owner only. *)
Lemma connect_names_first_missing_witness :
  fst (connect Scenarios.sparse_abi Scenarios.fresh)
  = Throw (ContractMethodMissing "incrementCounter").
Proof.
  exact (connect_names_first_missing Scenarios.sparse_abi Scenarios.fresh
           Scenarios.metamask Scenarios.metamask None
           eq_refl eq_refl eq_refl eq_refl eq_refl).
Defined.

(** The theorem at a wallet that hands out no signer. *)
Lemma connect_without_signer_binds_provider_witness :
  Contract.isConnected (this (snd (connect Scenarios.no_signer Scenarios.fresh))) = false /\
  fst (getNetworkInfo Scenarios.no_signer (snd (connect Scenarios.no_signer Scenarios.fresh)))
    <> Throw (NotConnected TheProvider).
Proof.
  destruct (connect_without_signer_binds_provider Scenarios.no_signer Scenarios.fresh
              Scenarios.metamask Scenarios.metamask None Scenarios.user_rejected
              eq_refl eq_refl eq_refl eq_refl eq_refl eq_refl) as (_ & _ & H1 & _ & H2).
  split; assumption.
Defined.

(** The theorem at a wallet that is on Sepolia. *)
Lemma enforcer_twice_on_sepolia_witness :
  issued (ensureSepoliaNetwork Scenarios.sunny ;;; ensureSepoliaNetwork Scenarios.sunny)
    Scenarios.fresh
  = [Rpc eth_chainId; Rpc eth_chainId].
Proof.
  destruct (enforcer_twice_on_sepolia Scenarios.sunny Scenarios.fresh
              (Some "0xAA36A7") (Some "0xAA36A7") eq_refl eq_refl eq_refl eq_refl)
    as [_ H].
  exact H.
Defined.

Section Operations.

Variable env : Env.

(** X9.  Whatever state the service is in, [resetCounter] submits the
    reset transaction only after the owner and the signer address were both
    read and agree up to letter case. *)
Theorem reset_submits_only_for_owner h :
  In (Send "resetCounter") (issued (Contract.resetCounter env) h) ->
  exists o a,
    contract_owner env (trace h) = inr o /\
    signer_getAddress env (trace h ++ [Call "owner"]) = inr a /\
    toLowerCase o = toLowerCase a.
Proof.
  destruct h as [[[c|] p [[]|]] t]; unfold issued, Contract.resetCounter, getContract,
    getSigner, read_this, invoke; rewrite !bind_run; cbn [this _contract _signer ret throw snd trace];
    rewrite ?skipn_all; cbn [In]; try tauto;
    (destruct (has_method "owner" c) eqn:Hown;
     [|cbn [throw snd trace]; rewrite ?skipn_all; cbn [In]; tauto]);
    rewrite !bind_run, await_run; cbn [this trace];
    (destruct (contract_owner env t) as [e|o] eqn:Ho;
     [cbn [snd trace]; rewrite skipn_app_length; cbn [In]; intuition discriminate|]).
  all: rewrite ?bind_run; cbn [this _signer ret throw snd trace].
  2: { rewrite skipn_app_length; cbn [In]; intuition discriminate. }
  rewrite bind_run, await_run. cbn [this trace].
  destruct (signer_getAddress env (t ++ [Call "owner"])) as [e|a] eqn:Ha.
  { cbn [snd trace]. flatten_trace. rewrite skipn_app_length. cbn [In].
    intuition discriminate. }
  destruct (toLowerCase o =? toLowerCase a)%string eqn:Hcmp; cbn [negb].
  - intros _. exists o, a. apply String.eqb_eq in Hcmp. auto.
  - cbn [throw snd trace]. flatten_trace. rewrite skipn_app_length. cbn [In].
    intuition discriminate.
Qed.

End Operations.

(** The theorem at the owner's session. *)
Lemma reset_submits_only_for_owner_witness :
  toLowerCase "0xABCDEF0123456789abcdef0123456789ABCDEF01"
  = toLowerCase "0xabcdef0123456789abcdef0123456789abcdef01".
Proof.
  destruct (reset_submits_only_for_owner Scenarios.sunny Scenarios.connected_heap)
    as (o & a & Ho & Ha & H).
  - vm_compute. auto 10.
  - injection Ho as <-. injection Ha as <-. exact H.
Defined.

(* ===================================================================== *)
(** ** Further properties of the component *)
(* ===================================================================== *)

Section Acting.

Variable env : Env.

Lemma service_action_issued k h :
  exists tx n,
    issued (service_action env k) h = firstn n (action_script k tx) /\
    trace (snd (service_action env k h))
      = trace h ++ issued (service_action env k) h /\
    this (snd (service_action env k h)) = this h /\
    (n <= List.length (action_script k tx))%nat /\
    (forall hash, fst (service_action env k h) = Ok hash ->
                  issued (service_action env k) h = action_script k tx).
Proof.
  destruct h as [[[c|] p [[]|]] t];
  destruct k;
    unfold issued, service_action, Contract.incrementCounter, Contract.decrementCounter,
      Contract.resetCounter, send_and_wait, getContract, getSigner, invoke, read_this,
      await, bind, ret, throw;
    cbn -[toLowerCase has_method skipn firstn].
  all: repeat match goal with
         | |- context [match ?x with _ => _ end] =>
             lazymatch x with
             | context [match _ with _ => _ end] => fail
             | _ => destruct x eqn:?; cbn -[toLowerCase has_method skipn firstn]
             end
         end.
  all: flatten_trace; rewrite ?skipn_app_length, ?skipn_all.
  all: first
    [ solve [exists "", 0%nat; close_script] | solve [exists "", 1%nat; close_script]
    | solve [exists "", 2%nat; close_script] | solve [exists "", 3%nat; close_script]
    | solve [eexists; exists 2%nat; close_script]
    | solve [eexists; exists 4%nat; close_script] ].
Qed.

Lemma sends_firstn n (l : Trace) : (sends (firstn n l) <= sends l)%nat.
Proof.
  unfold sends. revert n. induction l as [|ev l IH]; intros [|n]; cbn; try lia.
  specialize (IH n). destruct (is_send ev); cbn; lia.
Qed.

Lemma getCounter_issued h :
  (fst (getCounter env h) = Throw (NotConnected TheContract)
   \/ fst (getCounter env h) = Throw (TypeError_notAFunction "getCounter"))
  /\ snd (getCounter env h) = h
  \/ trace (snd (getCounter env h)) = trace h ++ [Call "getCounter"].
Proof.
  destruct h as [[[c|] p sg] t];
    unfold getCounter, getContract, invoke, read_this, bind, ret, throw;
    cbn -[has_method]; [|auto].
  destruct (has_method "getCounter" c); [|auto].
  right. rewrite await_run. reflexivity.
Qed.

Lemma executor_logged k s h :
  exists tx n,
    logged h (snd (executeCounterAction env (service_action env k) k s h))
      = firstn n (action_script k tx ++ [Call "getCounter"]) /\
    (error (fst (executeCounterAction env (service_action env k) k s h)) = None ->
     (List.length (action_script k tx) < n)%nat) /\
    (forall e, fst (service_action env k h) = Throw e ->
               (n <= List.length (action_script k tx))%nat).
Proof.
  destruct (service_action_issued k h) as (tx & n & Hi & Ht & _ & Hn & Hok).
  exists tx. unfold logged. rewrite executeCounterAction_run.
  unfold issued in Hi, Ht, Hok.
  destruct (service_action env k h) as [[hash|e] h1]; cbn [fst snd] in *.
  - specialize (Hok hash eq_refl).
    assert (Ht1 : trace h1 = trace h ++ action_script k tx).
    { rewrite Ht, Hok at 1. reflexivity. }
    destruct (getCounter_issued h1) as [[Hr Hh]|Hc].
    + exists (List.length (action_script k tx)).
      destruct (getCounter env h1) as [[after|e] h2]; cbn [fst snd] in *;
        [destruct Hr; discriminate|]. subst h2.
      rewrite firstn_app, Nat.sub_diag, firstn_all, app_nil_r.
      repeat split; [exact Hok|discriminate|discriminate].
    + exists (S (List.length (action_script k tx))).
      assert (Hsent : skipn (List.length (trace h)) (trace (snd (getCounter env h1)))
                      = action_script k tx ++ [Call "getCounter"]).
      { rewrite Hc, Ht1, <- app_assoc. apply skipn_app_length. }
      rewrite firstn_all2 by (rewrite length_app; cbn; lia).
      destruct (getCounter env h1) as [[after|e] h2]; cbn [fst snd] in *;
        repeat split; try exact Hsent; try lia; discriminate.
  - exists n. rewrite Hi, firstn_app.
    replace (n - List.length (action_script k tx))%nat with 0%nat by lia.
    cbn [firstn]. rewrite app_nil_r. repeat split; [discriminate|lia].
Qed.

(** X10.  Whatever the session and the environment are, an action run by
    the executor sends an initial part of one fixed sequence: for a reset the
    owner and the signer address are read first, then the one transaction of
    the action is submitted, its confirmation awaited, and the counter read
    again.  The sequence is sent in full when the action ends without an
    error; the counter is re-read only after the service operation has
    returned; and no action submits more than one transaction. *)
Theorem executor_follows_script k s h :
  let s' := fst (executeCounterAction env (service_action env k) k s h) in
  let sent := logged h (snd (executeCounterAction env (service_action env k) k s h)) in
  exists tx n,
    sent = firstn n (action_script k tx ++ [Call "getCounter"]) /\
    (error s' = None -> sent = action_script k tx ++ [Call "getCounter"]) /\
    (In (Call "getCounter") sent ->
       exists hash, fst (service_action env k h) = Ok hash) /\
    (sends sent <= 1)%nat.
Proof.
  cbv zeta. destruct (executor_logged k s h) as (tx & n & Hsent & Hok & Hthrow).
  exists tx, n. rewrite Hsent. split; [reflexivity|]. split; [|split].
  - intros He. apply firstn_all2. rewrite length_app. cbn. specialize (Hok He). lia.
  - intros Hin. destruct (fst (service_action env k h)) as [hash|e]; [eauto|].
    specialize (Hthrow e eq_refl).
    rewrite firstn_app in Hin.
    replace (n - List.length (action_script k tx))%nat with 0%nat in Hin by lia.
    cbn [firstn] in Hin. rewrite app_nil_r in Hin. apply in_firstn in Hin.
    exfalso. destruct k; cbn in Hin; intuition discriminate.
  - etransitivity; [apply sends_firstn|]. destruct k; cbn; lia.
Qed.

(** X11.  The two ways the executor ends, for any action.  Either the
    action returned a hash and the re-read a value: no error is shown, the
    counter is that value, the ledger has gained exactly one entry holding
    the value, the kind of the action and the hash, and the hash is shown
    unless it is empty.  Or the action or the re-read threw: that error is
    shown, and counter, ledger and achievement are what they were, also when
    the transaction itself had been confirmed and only the re-read failed;
    the earlier notice and hash are cleared. *)
Theorem executor_outcome (action : M string) k s h :
  let s' := fst (executeCounterAction env action k s h) in
  let h' := snd (executeCounterAction env action k s h) in
  (exists txHash,
     fst (action h) = Ok txHash /\
     fst (getCounter env (snd (action h))) = Ok (counter s') /\
     error s' = None /\
     counterHistory s'
       = counterHistory s ++ [entry (counter s') k (now env (trace h')) (Some txHash)] /\
     successMessage s' = Some (ActionCompleted k) /\
     transactionHash s' = (if String.eqb txHash "" then None else Some txHash))
  \/
  (exists e,
     (fst (action h) = Throw e
      \/ (exists txHash, fst (action h) = Ok txHash)
         /\ fst (getCounter env (snd (action h))) = Throw e) /\
     error s' = Some (Thrown e) /\
     counterHistory s' = counterHistory s /\
     counter s' = counter s /\
     achievement s' = achievement s /\
     successMessage s' = None /\
     transactionHash s' = None).
Proof.
  cbv zeta. rewrite executeCounterAction_run.
  destruct (action h) as [[txHash|e] h1]; cbn [fst snd].
  - destruct (getCounter env h1) as [[after|e] h2]; cbn [fst snd].
    + left. exists txHash. unfold completed, showSuccess.
      destruct (goalValue s) as [g|];
        [destruct (truthy (Some g) && (g <=? after))%bool|];
        destruct (String.eqb txHash ""); repeat split.
    + right. exists e. repeat split; eauto.
  - right. exists e. repeat split; eauto.
Qed.


Lemma changes_count l :
  changes l = (List.length (filter (has_action "increment") l)
               + List.length (filter (has_action "decrement") l)
               + List.length (filter (has_action "reset") l))%nat.
Proof. destruct l; reflexivity. Qed.

Lemma changes_app l l' : changes (l ++ l') = (changes l + changes l')%nat.
Proof. rewrite !changes_count, !filter_app, !length_app. lia. Qed.

Lemma executor_ledger_step (action : M string) k s h :
  exists added,
    counterHistory (fst (executeCounterAction env action k s h))
      = counterHistory s ++ added /\
    (List.length added <= 1)%nat /\ changes added = List.length added /\
    dated added = true /\
    (added = [] <-> error (fst (executeCounterAction env action k s h)) <> None).
Proof.
  rewrite executeCounterAction_run.
  destruct (action h) as [[txHash|e] h1]; cbn [fst snd].
  - destruct (getCounter env h1) as [[after|e] h2]; cbn [fst snd].
    + exists [entry after k (now env (trace h2)) (Some txHash)].
      unfold completed, showSuccess.
      destruct (goalValue s) as [g|];
        [destruct (truthy (Some g) && (g <=? after))%bool|];
        destruct (String.eqb txHash "");
        repeat split; try (destruct k; reflexivity); try discriminate;
        intros Hn; exfalso; apply Hn; reflexivity.
    + exists []. rewrite app_nil_r. repeat split; auto. discriminate.
  - exists []. rewrite app_nil_r. repeat split; auto. discriminate.
Qed.

(** X12.  Over any sequence of actions run one after the other the ledger
    only grows at its end, by at most one entry per action, and the number
    of changes the statistics panel shows grows by exactly the number of
    entries added; a ledger without invalid dates stays so. *)
Theorem run_actions_ledger ks s h :
  exists added,
    counterHistory (fst (run_actions env ks s h)) = counterHistory s ++ added /\
    (List.length added <= List.length ks)%nat /\
    changes (counterHistory (fst (run_actions env ks s h)))
      = (changes (counterHistory s) + List.length added)%nat /\
    (dated (counterHistory s) = true ->
     dated (counterHistory (fst (run_actions env ks s h))) = true).
Proof.
  revert s h. induction ks as [|k ks IH]; intros s h; cbn [run_actions].
  - exists []. rewrite app_nil_r. cbn. repeat split; auto; lia.
  - destruct (executor_ledger_step (service_action env k) k s h)
      as (a1 & H1 & L1 & C1 & D1 & _).
    destruct (executeCounterAction env (service_action env k) k s h) as [s1 h1].
    cbn [fst] in H1.
    destruct (IH s1 h1) as (a2 & H2 & L2 & C2 & D2).
    exists (a1 ++ a2). rewrite H2, H1, <- app_assoc.
    split; [reflexivity|]. rewrite length_app. split; [cbn; lia|].
    split.
    + rewrite app_assoc, <- H1, <- H2, C2, H1, changes_app, C1. lia.
    + intros D. rewrite app_assoc, <- H1, <- H2. apply D2. rewrite H1.
      unfold dated in *. rewrite forallb_app, D. exact D1.
Qed.

End Acting.

Section Exporting.

Lemma map_throwing_export_dated l :
  map_throwing export_entry l = None <-> dated l = false.
Proof.
  induction l as [|e l IH]; cbn; [split; discriminate|].
  unfold export_entry at 1.
  destruct (timestamp e) as [t|]; cbn; [|tauto].
  destruct (map_throwing export_entry l).
  - split; [discriminate|]. intros D. apply IH in D. discriminate.
  - split; [|reflexivity]. intros _. now apply IH.
Qed.

(** X13.  [exportHistory] writes no file, because [toISOString] throws,
    exactly when some entry of the ledger holds an invalid date. *)
Theorem export_fails_iff_undated now s :
  exportHistory now s = None <-> dated (counterHistory s) = false.
Proof.
  unfold exportHistory. rewrite <- map_throwing_export_dated.
  destruct (map_throwing export_entry (counterHistory s)); split; congruence.
Qed.

Lemma dated_step m i :
  is_import i = false ->
  dated (counterHistory (ui m)) = true ->
  dated (counterHistory (ui (step m i))) = true.
Proof.
  intros Hi D. destruct m as [s l]. cbn [ui] in D.
  destruct i as [b|key|n snap tx t|n e|eng input| |eng file|c t b'|e|o|a|net|gas];
    try discriminate Hi; cbn [step local ui].
  - unfold click, start. destruct (clickable b _); [|exact D]. destruct b; cbn; auto.
  - destruct (key_effect key _); cbn; auto.
  - unfold resolve. cbn [suspended ui].
    destruct (nth_error l n) as [[| |g k]|]; cbn [ui]; auto.
    + destruct snap as (cnt & own & addr & net & gas). reflexivity.
    + unfold completed, showSuccess, finish.
      destruct g as [g|]; [destruct (truthy (Some g) && (g <=? fst snap))%bool|];
        destruct (String.eqb tx ""); cbn; unfold dated in *;
        rewrite forallb_app, D; reflexivity.
  - unfold reject. cbn [suspended ui]. destruct (nth_error l n); cbn; auto.
  - unfold setGoal. destruct input as [i|]; [|exact D].
    destruct (BigInt eng _); [|exact D]. exact D.
  - exact D.
  - destruct b'; cbn; [|exact D]. unfold dated in *. rewrite forallb_app, D. reflexivity.
  - exact D.
  - unfold effect_isOwner. cbn. destruct (_ && _)%bool; exact D.
  - unfold effect_isOwner. cbn. destruct (_ && _)%bool; exact D.
  - exact D.
  - exact D.
Qed.

Lemma dated_fold inputs m :
  existsb is_import inputs = false ->
  dated (counterHistory (ui m)) = true ->
  dated (counterHistory (ui (fold_left step inputs m))) = true.
Proof.
  revert m. induction inputs as [|i rest IH]; intros m Hi D; cbn; [exact D|].
  cbn in Hi. apply orb_false_elim in Hi as [Hi Hrest].
  apply IH; [exact Hrest|]. now apply dated_step.
Qed.

(** X14.  In every state the component reaches without a file having been
    chosen for import, the ledger can be exported: the entries written by
    connecting, by the first load and by confirmed actions all carry a valid
    date. *)
Theorem ledger_exports_unless_imported inputs now :
  existsb is_import inputs = false ->
  exportHistory now (ui (run inputs)) <> None.
Proof.
  intros Hi. unfold exportHistory.
  destruct (map_throwing export_entry (counterHistory (ui (run inputs)))) eqn:E;
    [discriminate|].
  apply map_throwing_export_dated in E. unfold run in E.
  rewrite dated_fold in E; [discriminate|exact Hi|reflexivity].
Qed.

End Exporting.

(** The theorem at a connection followed by a key press. *)
Lemma ledger_exports_unless_imported_witness :
  existsb is_import Scenarios.increment_pressed = false /\
  exportHistory 0 (ui (run Scenarios.increment_pressed)) <> None.
Proof.
  split; [reflexivity|].
  apply (ledger_exports_unless_imported Scenarios.increment_pressed 0). reflexivity.
Defined.

Section Wallet.

Variable env : Env.

Lemma connect_ok_trace h :
  fst (connect env h) = Ok tt ->
  trace (snd (connect env h)) = trace h ++ issued (connect env) h.
Proof.
  intros Hok.
  destruct (connect_located env h _ Hok) as [[Hr _]|(win & injected & mm & W & Hw & Hp)].
  { destruct Hr as [Hr|[Hr|Hr]]; discriminate. }
  unfold issued. revert Hok. rewrite (connect_run env h win injected mm W Hw Hp).
  pose proof (ensureSepoliaNetwork_trace env h) as Ht.
  destruct (ensureSepoliaNetwork env h) as [[[]|e] h1]; cbn [fst snd] in *;
    [|discriminate].
  destruct (rpc env (trace h1) eth_requestAccounts) as [e|v]; [discriminate|].
  destruct (provider_getSigner env _) as [e|[]]; [discriminate|].
  destruct (first_missing (CounterABI env)) as [name|]; [discriminate|].
  intros _. cbn [fst snd trace]. rewrite Ht, <- !app_assoc, skipn_app_length.
  reflexivity.
Qed.

Lemma read_all_live h :
  live (this h) = true ->
  trace (snd (read_all env h)) = trace h ++ five_reads /\
  this (snd (read_all env h)) = this h /\
  forall snap, fst (read_all env h) = Ok snap ->
    contract_owner env (trace h ++ [Call "getCounter"]) = inr (fst (snd snap)) /\
    signer_getAddress env (trace h ++ [Call "getCounter"; Call "owner"])
      = inr (fst (snd (snd snap))).
Proof.
  intros Hlive. apply live_inv in Hlive as (c & Hthis & Hreq).
  cbn in Hreq. repeat (apply andb_prop in Hreq as [? Hreq]).
  destruct h as [s t]. cbn [this trace] in *. subst s.
  unfold read_all, both, getCounter, getOwner, getWalletAddress, getNetworkInfo,
    getGasPrice, getContract, getProvider, getSigner, invoke, read_this,
    await, bind, ret, throw.
  cbn -[has_method].
  repeat first
    [ match goal with Hm : has_method _ c = true |- _ => rewrite Hm end;
      cbn -[has_method]
    | match goal with
      | |- context [match ?x with _ => _ end] =>
          lazymatch x with
          | context [match _ with _ => _ end] => fail
          | _ => destruct x eqn:?; cbn -[has_method]
          end
      end ].
  all: flatten_trace; repeat split.
  all: match goal with
       | Hq : _ = Ok _ |- _ => first [discriminate Hq | injection Hq as <-]
       end; cbn [fst snd];
    repeat match goal with Hq : _ = inr _ |- _ => revert Hq end;
    flatten_trace; congruence.
Qed.


(** X15.  When [connect] has returned, [connectWallet] starts all five
    reads of its [Promise.all], in array order and whatever each of them
    answers, and sends nothing else; the handles of the service stay as
    [connect] left them. *)
Theorem connectWallet_issues_five_reads s h :
  fst (connect env h) = Ok tt ->
  logged h (snd (connectWallet env s h)) = issued (connect env) h ++ five_reads /\
  this (snd (connectWallet env s h)) = this (snd (connect env h)).
Proof.
  intros Hok. unfold logged. rewrite connectWallet_run.
  pose proof (connect_ok_trace h Hok) as Ht.
  pose proof (connect_ok_live env h Hok) as Hlive.
  remember (issued (connect env) h) as sent eqn:Hsent. clear Hsent.
  destruct (connect env h) as [[[]|e] h1]; cbn [fst snd] in *; [|discriminate].
  destruct (read_all_live h1 Hlive) as (Hr & Hthis & _).
  destruct (read_all env h1) as [[snap|e] h2]; cbn [fst snd] in *;
    rewrite Hr, Ht, <- app_assoc, skipn_app_length; auto.
Qed.


(** X17.  Connecting and then disconnecting leaves the component where
    disconnecting alone would have left it, with the busy flag cleared:
    whatever the connection attempt did, nothing of it stays in the
    component state. *)
Theorem disconnect_after_connect s h :
  disconnectWallet (fst (connectWallet env s h)) = setIsLoading false (disconnectWallet s).
Proof.
  rewrite connectWallet_run.
  destruct (connect env h) as [[[]|e] h1]; cbn [fst snd]; [|reflexivity].
  destruct (read_all env h1) as [[snap|e] h2]; cbn [fst snd]; [|reflexivity].
  destruct snap as (cnt & own & addr & net & gas). reflexivity.
Qed.

(** X18.  With an owner and a signer address that do not change, the
    component and the service agree on who may reset: after a successful
    [connectWallet] the reset button can be pressed exactly when the
    service's [resetCounter] does not refuse the caller as unauthorized. *)
Theorem reset_button_matches_service s h o a :
  (forall t, contract_owner env t = inr o) ->
  (forall t, signer_getAddress env t = inr a) ->
  error (fst (connectWallet env s h)) = None ->
  clickable ResetButton (fst (connectWallet env s h)) = true
  <-> fst (Contract.resetCounter env (snd (connectWallet env s h))) <> Throw Unauthorized.
Proof.
  intros Ho Ha. rewrite connectWallet_run.
  pose proof (connect_ok_live env h) as Hlive.
  destruct (connect env h) as [[[]|e] h1]; cbn [fst snd] in *; [|discriminate].
  specialize (Hlive eq_refl).
  destruct (read_all_live h1 Hlive) as (_ & Hthis & Hval).
  destruct (read_all env h1) as [[snap|e] h2]; cbn [fst snd] in *; [|discriminate].
  intros _. destruct (Hval snap eq_refl) as [Hown Haddr].
  rewrite Ho in Hown. rewrite Ha in Haddr.
  destruct snap as (cnt & own & addr & net & gas). cbn [fst snd] in *.
  injection Hown as <-. injection Haddr as <-.
  assert (Hl2 : live (this h2) = true) by (rewrite Hthis; exact Hlive).
  apply live_inv in Hl2 as (c & Hc & Hreq).
  assert (Hm : has_method "owner" c = true /\ has_method "resetCounter" c = true).
  { cbn in Hreq. repeat (apply andb_prop in Hreq as [? Hreq]). auto. }
  destruct Hm as [Hmo Hmr].
  rewrite (resetCounter_run env c h2 Hc Hmo), Ho, Ha.
  unfold clickable, rendered, disabled. cbn -[toLowerCase String.eqb].
  destruct (String.eqb (toLowerCase o) (toLowerCase a)); cbn -[toLowerCase].
  - split; [intros _|reflexivity].
    rewrite (send_and_wait_run env c "resetCounter" _ Hmr).
    destruct (contract_send env _ _) as [e|tx]; cbn; [discriminate|].
    destruct (tx_wait env _ tx); discriminate.
  - split; [discriminate|]. intros Hn. exfalso. now apply Hn.
Qed.

End Wallet.

(** The theorem at the first connection. *)
Lemma connectWallet_issues_five_reads_witness :
  logged Scenarios.fresh (snd (connectWallet Scenarios.sunny initial_state Scenarios.fresh))
  = issued (connect Scenarios.sunny) Scenarios.fresh ++ five_reads.
Proof.
  destruct (connectWallet_issues_five_reads Scenarios.sunny initial_state Scenarios.fresh
              eq_refl) as [H _].
  exact H.
Defined.

(** The theorem at the owner's session: the button can be pressed and the
    service does not refuse. *)
Lemma reset_button_matches_service_witness :
  clickable ResetButton (fst (connectWallet Scenarios.sunny initial_state Scenarios.fresh))
    = true
  <-> fst (Contract.resetCounter Scenarios.sunny
             (snd (connectWallet Scenarios.sunny initial_state Scenarios.fresh)))
      <> Throw Unauthorized.
Proof.
  apply (reset_button_matches_service Scenarios.sunny initial_state Scenarios.fresh
           "0xABCDEF0123456789abcdef0123456789ABCDEF01"
           "0xabcdef0123456789abcdef0123456789abcdef01").
  - intros t. reflexivity.
  - intros t. reflexivity.
  - reflexivity.
Defined.

Section Keys.

Variable env : Env.

Lemma key_effect_run key s k :
  key_effect key s = Run k ->
  CounterApp.isConnected s = true /\ isLoading s = false /\
  ((key = "+" \/ key = "=") /\ k = increment
   \/ key = "-" /\ k = decrement
   \/ (key = "r" \/ key = "R") /\ isOwner s = true /\ k = reset).
Proof.
  unfold key_effect.
  destruct (CounterApp.isConnected s), (isLoading s); cbn [negb orb]; try discriminate.
  destruct (String.eqb key "+") eqn:Kp; cbn [orb].
  { apply String.eqb_eq in Kp. intros [= <-]. auto 10. }
  destruct (String.eqb key "=") eqn:Ke.
  { apply String.eqb_eq in Ke. intros [= <-]. auto 10. }
  destruct (String.eqb key "-") eqn:Km.
  { apply String.eqb_eq in Km. intros [= <-]. auto 10. }
  destruct (String.eqb key "r") eqn:Kr; cbn [orb].
  { apply String.eqb_eq in Kr. destruct (isOwner s); intros [= <-]. auto 10. }
  destruct (String.eqb key "R") eqn:KR.
  { apply String.eqb_eq in KR. destruct (isOwner s); intros [= <-]. auto 10. }
  destruct (String.eqb key "Escape"); discriminate.
Qed.

(** X19.  A key press submits a transaction only when the component is
    connected and idle, and then only the one bound to the key: "+" and "="
    increment, "-" decrements, "r" and "R" reset and only with the owner
    flag set. *)
Theorem key_press_submits name key s h :
  In (Send name) (logged h (snd (handleKeyPress env key s h))) ->
  CounterApp.isConnected s = true /\ isLoading s = false /\
  ((key = "+" \/ key = "=") /\ name = "incrementCounter"
   \/ key = "-" /\ name = "decrementCounter"
   \/ (key = "r" \/ key = "R") /\ isOwner s = true /\ name = "resetCounter").
Proof.
  unfold handleKeyPress.
  destruct (key_effect key s) as [|k|] eqn:E; cbn [snd];
    try (unfold logged; rewrite skipn_all; intros []).
  destruct (executor_logged env k s h) as (tx & n & -> & _).
  intros Hin. apply in_firstn in Hin.
  assert (Hname : name = method_of k).
  { destruct k; cbn [action_script method_of app In] in *;
    intuition (try discriminate; congruence). }
  destruct (key_effect_run key s k E) as (Hc & Hl & Hk).
  split; [exact Hc|]. split; [exact Hl|].
  destruct Hk as [[Hk ->]|[[Hk ->]|(Hk & Ho & ->)]]; subst name; auto 10.
Qed.

End Keys.

(** The theorem at "+" pressed on the connected component. *)
Lemma key_press_submits_witness :
  CounterApp.isConnected Scenarios.connected_state = true /\
  isLoading Scenarios.connected_state = false.
Proof.
  destruct (key_press_submits Scenarios.sunny "incrementCounter" "+"
              Scenarios.connected_state Scenarios.connected_heap) as (H1 & H2 & _).
  - vm_compute. auto.
  - split; assumption.
Defined.

Section Goal.

(** X20.  An action that is pending checks the goal that was set when it
    was started.  Setting another goal or clearing the goal while the
    transaction is pending changes nothing in whether the achievement is
    announced when it completes, although the goal of the component is then
    the new one. *)
Theorem pending_action_keeps_its_goal m g k eng input snap tx now :
  suspended m = [Acting g k] ->
  achievement (ui (step (step m (GoalPrompt eng input)) (Resolve 0 snap tx now)))
    = achievement (ui (step m (Resolve 0 snap tx now))) /\
  achievement (ui (step (step m ClearGoalClick) (Resolve 0 snap tx now)))
    = achievement (ui (step m (Resolve 0 snap tx now))) /\
  goalValue (ui (step (step m ClearGoalClick) (Resolve 0 snap tx now))) = None.
Proof.
  intros Hs. destruct m as [s l]. cbn [suspended] in Hs. subst l.
  cbn [step local resolve suspended ui nth_error].
  unfold completed, showSuccess, finish, clearGoal, setGoal.
  repeat split.
  - destruct input as [i|]; [|reflexivity].
    destruct (BigInt eng _); [|reflexivity].
    destruct g as [g|]; [destruct (truthy (Some g) && (g <=? fst snap))%bool|];
      destruct (String.eqb tx ""); reflexivity.
  - destruct g as [g|]; [destruct (truthy (Some g) && (g <=? fst snap))%bool|];
      destruct (String.eqb tx ""); reflexivity.
  - destruct g as [g|]; [destruct (truthy (Some g) && (g <=? fst snap))%bool|];
      destruct (String.eqb tx ""); reflexivity.
Qed.

(** X21.  [setGoal] on what [prompt] returns.  Accepting the text the
    prompt opens with keeps a goal that is set, and sets the goal 0 when
    none is; the decimal text of an integer sets that integer; a non-empty
    text that [BigInt] rejects leaves the component as it was, without a
    message. *)
Theorem setGoal_on_prompt eng s :
  goalValue (setGoal eng (Some (prompt_default s)) s)
    = Some (match goalValue s with Some g => g | None => 0 end) /\
  (forall z, goalValue (setGoal eng (Some (BigInt_toString z)) s) = Some z) /\
  (forall i, i <> "" -> is_ascii_text i = true -> StringToBigInt i = None ->
             setGoal eng (Some i) s = s).
Proof.
  assert (Hz : forall z, goalValue (setGoal eng (Some (BigInt_toString z)) s) = Some z).
  { intros z. unfold setGoal.
    pose proof (BigInt_toString_roundtrip eng z) as Hr.
    destruct (String.eqb (BigInt_toString z) "") eqn:E.
    - apply String.eqb_eq in E. rewrite E in Hr. cbn in Hr. injection Hr as <-.
      reflexivity.
    - rewrite Hr. reflexivity. }
  split; [|split].
  - unfold prompt_default. destruct (goalValue s) as [g|] eqn:G; [|reflexivity].
    destruct (String.eqb (BigInt_toString g) "") eqn:E; [|apply Hz].
    apply String.eqb_eq in E. rewrite <- E. apply Hz.
  - exact Hz.
  - intros i Hne Ha Hn. unfold setGoal. apply String.eqb_neq in Hne. rewrite Hne.
    unfold BigInt. rewrite Ha, Hn. reflexivity.
Qed.

End Goal.

(** The theorem at a goal of 7 that is cleared while the increment is
    pending: the counter comes back as 7 and the achievement is announced. *)
Lemma pending_action_keeps_its_goal_witness :
  achievement (ui (step (step (run Scenarios.goal_pressed) ClearGoalClick)
                     (Resolve 0 Scenarios.snapshot "0xfeed" 3))) = Some 7 /\
  goalValue (ui (step (step (run Scenarios.goal_pressed) ClearGoalClick)
                   (Resolve 0 Scenarios.snapshot "0xfeed" 3))) = None.
Proof.
  destruct (pending_action_keeps_its_goal (run Scenarios.goal_pressed) (Some 7) increment
              Scenarios.plain_engine None Scenarios.snapshot "0xfeed" 3 eq_refl)
    as (_ & H2 & H3).
  split; [rewrite H2; reflexivity|exact H3].
Defined.

Section Panel.

Lemma has_action_exclusive e :
  (Nat.b2n (has_action "increment" e) + Nat.b2n (has_action "decrement" e)
   + Nat.b2n (has_action "reset" e) + Nat.b2n (uncounted e) = 1)%nat.
Proof.
  unfold uncounted, has_action. destruct (action e) as [[| | |a| |]|]; try reflexivity.
  destruct (String.eqb a "increment") eqn:Ei.
  { apply String.eqb_eq in Ei. subst a. reflexivity. }
  destruct (String.eqb a "decrement") eqn:Ed.
  { apply String.eqb_eq in Ed. subst a. reflexivity. }
  destruct (String.eqb a "reset"); reflexivity.
Qed.

Lemma length_filter_b2n {A} (f : A -> bool) (l : list A) :
  List.length (filter f l) = fold_right (fun x n => (Nat.b2n (f x) + n)%nat) 0%nat l.
Proof.
  induction l as [|x l IH]; cbn; [reflexivity|]. destruct (f x); cbn; now rewrite IH.
Qed.

Lemma changes_partition l :
  (changes l + List.length (filter uncounted l) = List.length l)%nat.
Proof.
  rewrite changes_count, !length_filter_b2n.
  induction l as [|e l IH]; cbn; [reflexivity|].
  pose proof (has_action_exclusive e). lia.
Qed.

(** X22.  The statistics are absent exactly for the empty ledger.
    Otherwise the total is the sum of the three counts and every entry is
    counted at most once: the entries whose action is none of increment,
    decrement and reset (the initial entry, or anything an imported file
    holds) are the ones not counted, and together with the total they make
    up the ledger. *)
Theorem statistics_counts now l :
  match statistics now l with
  | None => l = []
  | Some st =>
      l <> [] /\
      totalChanges st = (increments st + decrements st + resets st)%nat /\
      (totalChanges st + List.length (filter uncounted l) = List.length l)%nat
  end.
Proof.
  pose proof (changes_partition l) as Hp. unfold changes in Hp.
  destruct l as [|first l]; [reflexivity|].
  unfold statistics in *.
  cbn [totalChanges increments decrements resets averagePerDay] in *.
  split; [discriminate|]. split; [reflexivity|]. exact Hp.
Qed.

End Panel.

Section Theme.

(** X23.  With a working storage the theme survives a reload: after
    [toggleDarkMode] and a page load, the effect run on mount restores the
    mode the toggle chose, in the state and on the document, whatever the
    system preference is. *)
Theorem theme_survives_reload p pref :
  getItem_throws (localStorage p) = false ->
  setItem_throws (localStorage p) = false ->
  isDarkMode (restoreTheme pref (reload (toggleDarkMode p))) = negb (isDarkMode p) /\
  dark_class (restoreTheme pref (reload (toggleDarkMode p))) = negb (isDarkMode p).
Proof.
  intros Hg Hs. unfold toggleDarkMode, store_theme, restoreTheme, reload.
  cbn [applyTheme setIsDarkMode localStorage isDarkMode dark_class].
  rewrite Hs.
  cbn [localStorage getItem_throws setItem_throws theme_item isDarkMode dark_class].
  rewrite Hg. destruct (isDarkMode p); split; reflexivity.
Qed.

(** X24.  When the storage refuses the write, [toggleDarkMode] still
    switches the mode in the state and on the document, but the choice is
    lost: the next page load restores what it would have restored without
    the toggle. *)
Theorem theme_toggle_without_storage p pref :
  setItem_throws (localStorage p) = true ->
  isDarkMode (toggleDarkMode p) = negb (isDarkMode p) /\
  dark_class (toggleDarkMode p) = negb (isDarkMode p) /\
  restoreTheme pref (reload (toggleDarkMode p)) = restoreTheme pref (reload p).
Proof.
  intros Hs. unfold toggleDarkMode, store_theme.
  cbn [applyTheme setIsDarkMode localStorage isDarkMode dark_class].
  rewrite Hs. repeat split.
Qed.

End Theme.

(** The theorem at a first visit with a light system preference. *)
Lemma theme_survives_reload_witness :
  isDarkMode (restoreTheme (Some false) (reload (toggleDarkMode Scenarios.first_visit)))
  = true.
Proof.
  destruct (theme_survives_reload Scenarios.first_visit (Some false) eq_refl eq_refl)
    as [H _].
  exact H.
Defined.

(** The theorem at a browser that refuses to store. *)
Lemma theme_toggle_without_storage_witness :
  isDarkMode (toggleDarkMode Scenarios.private_mode) = true /\
  isDarkMode (restoreTheme (Some false) (reload (toggleDarkMode Scenarios.private_mode)))
  = false.
Proof.
  destruct (theme_toggle_without_storage Scenarios.private_mode (Some false) eq_refl)
    as (H1 & _ & H3).
  split; [exact H1|rewrite H3; reflexivity].
Defined.

Section Loaders.

(** X25.  Once the owner and the wallet address have both been loaded and
    neither is empty, the owner flag is their comparison in lower case, in
    whichever order the two loads come back and whatever the flag was. *)
Theorem owner_flag_order_independent m o a :
  o <> "" -> a <> "" ->
  isOwner (ui (step (step m (OwnerLoaded o)) (WalletAddressLoaded a)))
    = String.eqb (toLowerCase o) (toLowerCase a) /\
  isOwner (ui (step (step m (WalletAddressLoaded a)) (OwnerLoaded o)))
    = String.eqb (toLowerCase o) (toLowerCase a).
Proof.
  intros Ho Ha. apply String.eqb_neq in Ho, Ha.
  destruct m as [s l]. cbn [step local ui].
  unfold effect_isOwner.
  cbn -[toLowerCase String.eqb].
  split.
  - destruct (negb (String.eqb o "") && negb (String.eqb (walletAddress s) ""))%bool;
      cbn -[toLowerCase String.eqb]; rewrite Ho, Ha; reflexivity.
  - destruct (negb (String.eqb (owner s) "") && negb (String.eqb a ""))%bool;
      cbn -[toLowerCase String.eqb]; rewrite Ho, Ha; reflexivity.
Qed.

End Loaders.

(** The theorem at two addresses that differ in letter case. *)
Lemma owner_flag_order_independent_witness :
  isOwner (ui (step (step initial_machine (OwnerLoaded "0xAB")) (WalletAddressLoaded "0xab")))
  = true.
Proof.
  destruct (owner_flag_order_independent initial_machine "0xAB" "0xab") as [H _].
  - discriminate.
  - discriminate.
  - exact H.
Defined.

Section Guarantees.

Variable env : Env.

Lemma live_action_errors k h e :
  live (this h) = true ->
  fst (service_action env k h) = Throw e ->
  (exists cause, e = Rejected cause) \/ (k = reset /\ e = Unauthorized).
Proof.
  intros Hlive. apply live_inv in Hlive as (c & Hthis & Hreq).
  cbn in Hreq. repeat (apply andb_prop in Hreq as [? Hreq]).
  destruct h as [s t]. cbn [this] in Hthis. subst s.
  destruct k;
    unfold service_action, Contract.incrementCounter, Contract.decrementCounter,
      Contract.resetCounter, send_and_wait, getContract, getSigner, invoke, read_this,
      await, bind, ret, throw;
    cbn -[has_method toLowerCase];
    repeat first
      [ match goal with Hm : has_method _ c = true |- _ => rewrite Hm end;
        cbn -[has_method toLowerCase]
      | match goal with
        | |- context [match ?x with _ => _ end] =>
            lazymatch x with
            | context [match _ with _ => _ end] => fail
            | _ => destruct x eqn:?; cbn -[has_method toLowerCase]
            end
        end ];
    intros [= <-]; eauto.
Qed.

Lemma live_getCounter_errors h e :
  live (this h) = true ->
  fst (getCounter env h) = Throw e -> exists cause, e = Rejected cause.
Proof.
  intros Hlive. apply live_inv in Hlive as (c & Hthis & Hreq).
  cbn in Hreq. apply andb_prop in Hreq as [Hm _].
  destruct h as [s t]. cbn [this] in Hthis. subst s.
  unfold getCounter, getContract, invoke, read_this, bind, ret.
  cbn -[has_method]. rewrite Hm, await_run.
  destruct (contract_getCounter env _); intros [= <-]. eauto.
Qed.

(** X26.  What the validation in [connect] buys: on a live session an
    action of the component never fails on a connection guard or on a
    method the contract lacks.  The only errors it can show are a rejection
    by the wallet or the chain and, for a reset, the refusal of a caller who
    is not the owner. *)
Theorem live_session_errors_are_rejections k s h e :
  live (this h) = true ->
  error (fst (executeCounterAction env (service_action env k) k s h))
    = Some (Thrown e) ->
  (exists cause, e = Rejected cause) \/ (k = reset /\ e = Unauthorized).
Proof.
  intros Hlive. rewrite executeCounterAction_run.
  pose proof (live_action_errors k h) as Ha.
  destruct (service_action_issued env k h) as (_ & _ & _ & _ & Hthis & _).
  destruct (service_action env k h) as [[txHash|e1] h1]; cbn [fst snd] in *.
  - assert (Hl1 : live (this h1) = true) by (rewrite Hthis; exact Hlive).
    pose proof (live_getCounter_errors h1) as Hc.
    destruct (getCounter env h1) as [[after|e2] h2]; cbn [fst snd] in *.
    + unfold completed, showSuccess.
      destruct (goalValue s) as [g|];
        [destruct (truthy (Some g) && (g <=? after))%bool|];
        destruct (String.eqb txHash ""); discriminate.
    + intros [= <-]. left. now apply Hc.
  - intros [= <-]. now apply Ha.
Qed.

(** X27.  For a goal other than 0, the announcement and the goal display
    agree after a confirmed action: the achievement is announced exactly
    when [isGoalReached] holds in the state the action leaves. *)
Theorem achievement_agrees_with_isGoalReached (action : M string) k s h g :
  goalValue s = Some g -> g <> 0 -> achievement s = None ->
  error (fst (executeCounterAction env action k s h)) = None ->
  achievement (fst (executeCounterAction env action k s h)) = Some g
  <-> isGoalReached (fst (executeCounterAction env action k s h)) = true.
Proof.
  intros Hg Hnz Hach. rewrite executeCounterAction_run.
  destruct (action h) as [[txHash|e] h1]; cbn [fst snd]; [|discriminate].
  destruct (getCounter env h1) as [[after|e] h2]; cbn [fst snd]; [|discriminate].
  intros _. rewrite Hg. unfold completed, showSuccess, isGoalReached, truthy.
  apply Z.eqb_neq in Hnz. rewrite Hnz. cbn [negb andb].
  destruct (g <=? after) eqn:Hle; destruct (String.eqb txHash "");
    cbn; rewrite ?Hg, ?Hle, ?Hach; split; congruence.
Qed.

End Guarantees.

(** The theorem at a user who turns the transaction down. *)
Lemma live_session_errors_are_rejections_witness :
  (exists cause, Rejected Scenarios.user_rejected = Rejected cause)
  \/ (increment = reset /\ Rejected Scenarios.user_rejected = Unauthorized).
Proof.
  exact (live_session_errors_are_rejections Scenarios.tx_refused increment
           Scenarios.connected_state Scenarios.connected_heap
           (Rejected Scenarios.user_rejected) eq_refl eq_refl).
Defined.

(** The theorem at a goal of 7 and a counter that comes back as 7. *)
Lemma achievement_agrees_with_isGoalReached_witness :
  achievement (fst (executeCounterAction Scenarios.sunny
                      (Contract.incrementCounter Scenarios.sunny) increment
                      (setGoal Scenarios.plain_engine (Some "7") Scenarios.connected_state)
                      Scenarios.connected_heap)) = Some 7
  <-> isGoalReached (fst (executeCounterAction Scenarios.sunny
                            (Contract.incrementCounter Scenarios.sunny) increment
                            (setGoal Scenarios.plain_engine (Some "7")
                               Scenarios.connected_state)
                            Scenarios.connected_heap)) = true.
Proof.
  apply (achievement_agrees_with_isGoalReached Scenarios.sunny
           (Contract.incrementCounter Scenarios.sunny) increment
           (setGoal Scenarios.plain_engine (Some "7") Scenarios.connected_state)
           Scenarios.connected_heap 7).
  - reflexivity.
  - discriminate.
  - reflexivity.
  - reflexivity.
Defined.
